(** * simplepush worker: the per-connection session of pushgo

    A shallow embedding of [simplepush.Worker] (Hello, Ack, Register,
    Unregister, Flush, Ping, handleError, Run and sniffer) and of the static
    locator, with the properties the specification states about them.

    Conventions.
    - Go strings are byte strings: [string] with [String.length] for [len].
    - [util.JsMap] (a [map[string]interface{}]) is a [gmap string JsVal];
      an [interface{}] value is a [JsVal], [JNil] being Go's [nil].
    - A handler is a computation over the session: it reads and writes the
      worker's [state], the socket record's [Uaid], the message map it was
      handed, the store and the dispatcher, and it appends every outward
      effect (socket frame, dispatcher command, store call, log line) to a
      [trace].  A computation either finishes or is left panicking. *)

From Stdlib Require Import ZArith Lia Ascii String.
From stdpp Require Import base option list strings gmap.

Set Warnings "-register-all".
Open Scope Z_scope.

(** ** Data *)

Inductive JsVal :=
| JNil
| JBool (b : bool)
| JNum (n : Z)
| JStr (s : string)
| JArr (l : list JsVal)
| JMap (m : gmap string JsVal).

Abbreviation JsMap := (gmap string JsVal).

(** [m[k]] on a Go map: the zero value [nil] when the key is absent. *)
Definition index (m : JsMap) (k : string) : JsVal := default JNil (m !! k).

Definition is_nil (v : JsVal) : bool :=
  match v with JNil => true | _ => false end.

Definition len (s : string) : Z := Z.of_nat (String.length s).

(** Modelled from the spec: the error values of package [sperrors] (the
    taxonomy of sections 6 and 7); [StorageError] stands for any error a
    store operation hands back. *)
Inductive error :=
| InvalidCommandError
| InvalidDataError
| MissingDataError
| UnknownCommandError
| StorageError (msg : string).

(** Modelled from the spec: [PushCommand], declared outside this file; a
    command code and untyped arguments. *)
Record PushCommand := { Command : Z; Arguments : JsVal }.

Definition INACTIVE : Z := 0.
Definition ACTIVE : Z := 1.
Definition UAID_MAX_LEN : Z := 100.
Definition CHID_MAX_LEN : Z := 100.

Inductive Level := LDebug | LInfo | LWarn | LError.

Inductive StoreOp :=
| OpSetUAIDHost (uaid : string)
| OpGetUpdates (uaid : string) (lastAccessed : Z)
| OpAck (uaid : string) (data : JsMap)
| OpRegisterAppID (uaid appid : string) (vers : Z)
| OpDeleteAppID (uaid appid : string) (clearOnly : bool).

(** What a session does to the outside, in the order it does it. *)
Inductive Event :=
| Log (lvl : Level) (kind msg : string)
| ScmdSend (cmd : PushCommand)
| SocketSend (frame : JsMap)
| SocketClose
| StoreCall (op : StoreOp).

(** ** What the worker imports *)

(** Declarations and library code the worker uses but which are not part
    of this file: the dispatcher command codes, [sperrors.ErrToStatus],
    the Unicode path of [strings.ToLower], and [json.Unmarshal] into a
    [util.JsMap] ([None]: decode error; [Some None]: the map is left [nil],
    as for the JSON text null; [Some (Some m)]: an object). *)
Class Runtime := {
  HELLO : Z;
  REGIS : Z;
  DIE : Z;
  FLUSH : Z;
  ErrToStatus : error → Z * string;
  unicode_ToLower : string → string;
  json_Unmarshal : string → option (option JsMap);
}.

(** The storage interface bound to a socket ([sock.Store]) over store
    states [S], and the shared server over states [D]: the two ends of the
    [Scmd] channel and the UUID source. *)
Class Backend (S D : Type) := {
  Store_SetUAIDHost : string → S → option error * S;
  Store_GetUpdates : string → Z → S → (option JsMap * option error) * S;
  Store_Ack : string → JsMap → S → option error * S;
  Store_RegisterAppID : string → string → Z → S → option error * S;
  Store_DeleteAppID : string → string → bool → S → option error * S;
  Scmd_put : PushCommand → D → D;
  Scmd_take : D → PushCommand * D;
  GenUUID4 : D → (string * option error) * D;
}.

(** ** strings.ToLower and the ChannelID filter *)

Definition byte_in (lo hi : nat) (c : ascii) : bool :=
  (lo <=? nat_of_ascii c)%nat && (nat_of_ascii c <=? hi)%nat.

Definition is_upper : ascii → bool := byte_in 65 90.
Definition is_lower : ascii → bool := byte_in 97 122.
Definition is_digit : ascii → bool := byte_in 48 57.

Definition lower_byte (c : ascii) : ascii :=
  if is_upper c then ascii_of_nat (nat_of_ascii c + 32) else c.

Fixpoint map_bytes (f : ascii → ascii) (s : string) : string :=
  match s with
  | EmptyString => EmptyString
  | String c s' => String (f c) (map_bytes f s')
  end.

Fixpoint all_bytes (p : ascii → bool) (s : string) : bool :=
  match s with
  | EmptyString => true
  | String c s' => p c && all_bytes p s'
  end.

Definition isASCII : string → bool := all_bytes (byte_in 0 127).

(** [strings.ToLower]: bytes 'A'..'Z' are lowered when the string is all
    ASCII; a string with a multi-byte rune goes through the Unicode tables. *)
Definition ToLower `{Runtime} (s : string) : string :=
  if isASCII s then map_bytes lower_byte s else unicode_ToLower s.

(** The class [\w-] of the worker's filter: digits, letters, '_' and '-'. *)
Definition word_or_hyphen (c : ascii) : bool :=
  is_digit c || is_upper c || is_lower c
  || Ascii.eqb c "_"%char || Ascii.eqb c "-"%char.

(** [self.filter.Find], for the pattern [[^\w-]] compiled in [NewWorker]:
    the leftmost byte outside the class, [None] (Go's [nil]) when there is
    none.  Every byte of a multi-byte or invalid rune is outside the class. *)
Fixpoint filter_Find (b : string) : option string :=
  match b with
  | EmptyString => None
  | String c b' =>
      if word_or_hyphen c then filter_Find b' else Some (String c EmptyString)
  end.

(** ** The static locator *)

Record StaticLocatorConf := { conf_Contacts : list string; BucketSize : Z }.
Record StaticLocator := { contacts : list string; bucketSize : Z }.

Definition ConfigStruct : StaticLocatorConf :=
  {| conf_Contacts := []; BucketSize := 10 |}.

Definition Init (conf : StaticLocatorConf) : StaticLocator :=
  {| contacts := conf_Contacts conf; bucketSize := BucketSize conf |}.

Definition Contacts (l : StaticLocator) (_ : string) : list string := contacts l.
Definition MaxParallel (l : StaticLocator) : Z := bucketSize l.

(** ** The session and its computations *)

Section SessionMonad.
Context {S D : Type} `{Runtime} `{Backend S D}.

(** [state] is [Worker.state]; [Uaid] is the [Uaid] field of the [PushWS]
    that [Run] holds (only [Hello] receives a pointer to it, the other
    handlers read a copy); [buffer] is the map object of the message in
    hand, which handlers index and [Hello] updates in place. *)
Record Session := {
  state : Z;
  Uaid : string;
  buffer : JsMap;
  Store : S;
  Srv : D;
  trace : list Event;
}.

Inductive Res (A : Type) :=
| Done (a : A) (s : Session)
| Panicked (s : Session).
Global Arguments Done {A} a s.
Global Arguments Panicked {A} s.

Definition M (A : Type) : Type := Session → Res A.

Definition ret {A} (a : A) : M A := λ s, Done a s.

Definition bind {A B} (c : M A) (k : A → M B) : M B := λ s,
  match c s with
  | Done a s' => k a s'
  | Panicked s' => Panicked s'
  end.

Definition panic {A} : M A := λ s, Panicked s.

Definition emit (e : Event) : M unit := λ s,
  Done tt {| state := state s; Uaid := Uaid s; buffer := buffer s;
             Store := Store s; Srv := Srv s; trace := trace s ++ [e] |}.

Definition get_state : M Z := λ s, Done (state s) s.
Definition get_Uaid : M string := λ s, Done (Uaid s) s.
Definition get_buffer : M JsMap := λ s, Done (buffer s) s.

Definition set_state (v : Z) : M unit := λ s,
  Done tt {| state := v; Uaid := Uaid s; buffer := buffer s;
             Store := Store s; Srv := Srv s; trace := trace s |}.

Definition set_Uaid (u : string) : M unit := λ s,
  Done tt {| state := state s; Uaid := u; buffer := buffer s;
             Store := Store s; Srv := Srv s; trace := trace s |}.

Definition set_buffer (m : JsMap) : M unit := λ s,
  Done tt {| state := state s; Uaid := Uaid s; buffer := m;
             Store := Store s; Srv := Srv s; trace := trace s |}.

(** A call on [sock.Store]: recorded, then run on the store. *)
Definition store_call {A} (op : StoreOp) (f : S → A * S) : M A := λ s,
  let '(a, st) := f (Store s) in
  Done a {| state := state s; Uaid := Uaid s; buffer := buffer s;
            Store := st; Srv := Srv s; trace := trace s ++ [StoreCall op] |}.

(** [sock.Scmd <- cmd]. *)
Definition Scmd_send (cmd : PushCommand) : M unit := λ s,
  Done tt {| state := state s; Uaid := Uaid s; buffer := buffer s;
             Store := Store s; Srv := Scmd_put cmd (Srv s);
             trace := trace s ++ [ScmdSend cmd] |}.

(** [<-sock.Scmd]. *)
Definition Scmd_recv : M PushCommand := λ s,
  let '(r, d) := Scmd_take (Srv s) in
  Done r {| state := state s; Uaid := Uaid s; buffer := buffer s;
            Store := Store s; Srv := d; trace := trace s |}.

Definition genUUID4 : M string := λ s,
  let '(r, d) := GenUUID4 (Srv s) in
  Done (fst r) {| state := state s; Uaid := Uaid s; buffer := buffer s;
                  Store := Store s; Srv := d; trace := trace s |}.

Definition log (lvl : Level) (kind msg : string) : M unit :=
  emit (Log lvl kind msg).

(** [websocket.JSON.Send(sock.Socket, frame)]; its error is never read. *)
Definition Socket_Send (frame : JsMap) : M unit := emit (SocketSend frame).
Definition Socket_Close : M unit := emit SocketClose.

(** The type assertion [v.(string)]. *)
Definition as_string (v : JsVal) : M string :=
  match v with JStr s => ret s | _ => panic end.

(** The type assertion [v.(util.JsMap)]. *)
Definition as_JsMap (v : JsVal) : M JsMap :=
  match v with JMap m => ret m | _ => panic end.

(** [defer d] around [body]: [d] runs when [body] returns and when it
    panics; a panic goes on after it. *)
Definition deferring {A} (body : M A) (d : M unit) : M A := λ s,
  match body s with
  | Done a s' =>
      match d s' with Done _ s'' => Done a s'' | Panicked s'' => Panicked s'' end
  | Panicked s' =>
      match d s' with Done _ s'' => Panicked s'' | Panicked s'' => Panicked s'' end
  end.

(** The deferred function of Hello, Ack, Register and Unregister:
    [if r := recover(); r != nil { log; err = InvalidDataError }]. *)
Definition recovering (body : M (option error)) : M (option error) := λ s,
  match body s with
  | Done err s' => Done err s'
  | Panicked s' =>
      match log LError "worker" "Unhandled error" s' with
      | Done _ s'' => Done (Some InvalidDataError) s''
      | Panicked s'' => Panicked s''
      end
  end.

(** The session a computation ends in, finished or panicking. *)
Definition final {A} (r : Res A) : Session :=
  match r with Done _ s' => s' | Panicked s' => s' end.

(** A computation that leaves [sock.Uaid] as it found it. *)
Definition keeps_Uaid {A} (c : M A) : Prop :=
  ∀ s, Uaid (final (c s)) = Uaid s.

(** A computation that leaves [sock.Uaid] alone when it is [u]. *)
Definition fixed_Uaid {A} (u : string) (c : M A) : Prop :=
  ∀ s, Uaid s = u → Uaid (final (c s)) = u.

End SessionMonad.

Arguments Session : clear implicits.
Arguments M : clear implicits.
Arguments Res : clear implicits.

Notation "'let!' x ':=' c 'in' k" := (bind c (λ x, k))
  (at level 10, x name, c at level 100, k at level 200).
Notation "c '>>' k" := (bind c (λ _, k))
  (at level 90, right associativity).

(** ** The worker *)

Section Worker.
Context {S D : Type} `{Runtime} `{Backend S D}.

Abbreviation Act := (M S D).

(** [message["status"], message["error"] = sperrors.ErrToStatus(err)]. *)
Definition error_frame (message : JsMap) (err : error) : JsMap :=
  <["error" := JStr (snd (ErrToStatus err))]>
    (<["status" := JNum (fst (ErrToStatus err))]> message).

(** [handleError]: stamp [status] and [error] on the message and send it.
    The map is stamped in place; where the caller passes the message in
    hand, it records that in the session (see [Run_In]). *)
Definition handleError (message : JsMap) (err : error) : Act unit :=
  log LInfo "worker" "Sending error" >>
  Socket_Send (error_frame message err).

(** [Flush]: dump any records associated with the UAID.  The branch for an
    empty UAID has no [return]: control goes on to [GetUpdates]. *)
Definition Flush (lastAccessed : Z) : Act unit :=
  deferring
    (let! uaid := get_Uaid in
     (if String.eqb uaid ""
      then log LError "worker" "Undefined UAID for socket. Aborting." >>
           Scmd_send {| Command := DIE; Arguments := JNil |} >>
           Socket_Close
      else ret tt) >>
     let! r := store_call (OpGetUpdates uaid lastAccessed)
                          (Store_GetUpdates uaid lastAccessed) in
     match snd r with
     | Some err => handleError {["messageType" := JStr "notification"]} err
     | None =>
         match fst r with
         | None => ret tt
         | Some updates =>
             log LDebug "worker" "Flushing data back to socket" >>
             Socket_Send (<["messageType" := JStr "notification"]> updates)
         end
     end)
    (log LInfo "timer" "Client flush completed").

Definition Hello_body : Act (option error) :=
  let! data0 := get_buffer in
  (match data0 !! "uaid" with
   | None => set_buffer (<["uaid" := JStr ""]> data0)
   | Some _ => ret tt
   end) >>
  let! data := get_buffer in
  if is_nil (index data "channelIDs") then ret (Some MissingDataError) else
  let! sockUaid := get_Uaid in
  let! other :=
    (if 0 <? len sockUaid then
       let! u := as_string (index data "uaid") in
       if 0 <? len u then ret (negb (String.eqb sockUaid u)) else ret false
     else ret false) in
  if other then ret (Some InvalidCommandError) else
  let! tooLong :=
    (if len sockUaid =? 0 then
       let! u := as_string (index data "uaid") in
       set_Uaid u >>
       if UAID_MAX_LEN <? len u then ret true else
       (if len u =? 0 then (let! id := genUUID4 in set_Uaid id) else ret tt) >>
       ret false
     else ret false) in
  if tooLong then ret (Some InvalidDataError) else
  let! uaid := get_Uaid in
  Scmd_send {| Command := HELLO;
               Arguments := JMap {[ "uaid" := JStr uaid;
                                    "chids" := index data "channelIDs" ]} |} >>
  let! result := Scmd_recv in
  let! err := store_call (OpSetUAIDHost uaid) (Store_SetUAIDHost uaid) in
  match err with
  | Some e => ret (Some e)
  | None =>
      log LDebug "worker" "sending response" >>
      Socket_Send {[ "messageType" := index data "messageType";
                     "status" := JNum (Command result);
                     "uaid" := JStr uaid ]} >>
      set_state ACTIVE >>
      Flush 0 >>
      ret None
  end.

(** Associate the UAID for this socket connection. *)
Definition Hello : Act (option error) := recovering Hello_body.

Definition Ack_body : Act (option error) :=
  let! uaid := get_Uaid in
  if String.eqb uaid "" then ret (Some InvalidCommandError) else
  let! data := get_buffer in
  if is_nil (index data "updates") then ret (Some MissingDataError) else
  let! err := store_call (OpAck uaid data) (Store_Ack uaid data) in
  match err with
  | None => Flush 0 >> ret None
  | Some e => log LDebug "worker" "sending response" >> ret (Some e)
  end.

(** Clear the data the client stated it received, then re-flush. *)
Definition Ack : Act (option error) := recovering Ack_body.

Definition Register_body : Act (option error) :=
  let! uaid := get_Uaid in
  if String.eqb uaid "" then ret (Some InvalidCommandError) else
  let! data := get_buffer in
  if is_nil (index data "channelID") then ret (Some MissingDataError) else
  let! appid := as_string (index data "channelID") in
  if CHID_MAX_LEN <? len appid then ret (Some InvalidDataError) else
  if bool_decide (filter_Find (ToLower appid) ≠ None)
  then ret (Some InvalidDataError) else
  let! err := store_call (OpRegisterAppID uaid appid 0)
                         (Store_RegisterAppID uaid appid 0) in
  match err with
  | Some e =>
      log LError "worker" "ERROR: RegisterAppID failed %s" >> ret (Some e)
  | None =>
      Scmd_send {| Command := REGIS; Arguments := JMap data |} >>
      let! result := Scmd_recv in
      log LDebug "worker" "Server returned %s" >>
      let! args := as_JsMap (Arguments result) in
      let! endpoint := as_string (index args "pushEndpoint") in
      let reply : JsMap := {[ "messageType" := index data "messageType";
                              "uaid" := JStr uaid;
                              "status" := JNum 200;
                              "channelID" := index data "channelID";
                              "pushEndpoint" := JStr endpoint ]} in
      log LDebug "worker" "sending response" >>
      Socket_Send reply >>
      ret None
  end.

(** Register a new ChannelID. *)
Definition Register : Act (option error) := recovering Register_body.

Definition Unregister_body : Act (option error) :=
  let! uaid := get_Uaid in
  if String.eqb uaid ""
  then log LError "worker" "Unregister failed, missing sock.uaid" >>
       ret (Some InvalidCommandError)
  else
  let! data := get_buffer in
  if is_nil (index data "channelID")
  then log LError "worker" "Unregister failed, missing channelID" >>
       ret (Some MissingDataError)
  else
  let! appid := as_string (index data "channelID") in
  store_call (OpDeleteAppID uaid appid false)
             (Store_DeleteAppID uaid appid false) >>
  log LDebug "worker" "sending response" >>
  Socket_Send {[ "messageType" := index data "messageType";
                 "status" := JNum 200;
                 "channelID" := JStr appid ]} >>
  ret None.

(** Unregister a ChannelID. *)
Definition Unregister : Act (option error) := recovering Unregister_body.

(** [Ping] has no deferred recovery and reads nothing of the session. *)
Definition Ping : Act (option error) :=
  let! data := get_buffer in
  Socket_Send {[ "messageType" := index data "messageType";
                 "status" := JNum 200 ]} >>
  ret None.

(** What the select of [Run] can receive: a command on [sock.Ccmd] (with
    the clock reading [time.Now().UTC().Unix()] taken when it is served) or
    a decoded message on [in], whose map may be [nil]. *)
Inductive Incoming :=
| FromCcmd (cmd : PushCommand) (now : Z)
| FromIn (buffer : option JsMap).

(** [case cmd := <-sock.Ccmd]. *)
Definition Run_Ccmd (cmd : PushCommand) (now : Z) : Act unit :=
  log LInfo "worker" "Client cmd" >>
  if Command cmd =? FLUSH
  then log LInfo "worker" "Flushing... %s" >> Flush now
  else ret tt.

(** The switch on [strings.ToLower(buffer["messageType"].(string))]. *)
Definition Run_switch (messageType : string) : Act (option error) :=
  let t := ToLower messageType in
  if String.eqb t "hello" then Hello
  else if String.eqb t "ack" then Ack
  else if String.eqb t "register" then Register
  else if String.eqb t "unregister" then Unregister
  else if String.eqb t "ping" then Ping
  else log LWarn "worker" "Bad command" >> ret (Some UnknownCommandError).

(** [case buffer := <-in], after its [defer] statement.  [len] of a [nil]
    map is 0 and the assignment to its entry panics; the assertion
    [.(string)] on the message type is made here, outside any handler. *)
Definition Run_In (received : option JsMap) : Act unit :=
  match received with
  | None => panic
  | Some m =>
      set_buffer m >>
      (if 0 <? Z.of_nat (size m)
       then log LInfo "worker" "Client Read buffer, %s %d"
       else ret tt) >>
      (if Z.of_nat (size m) =? 0
       then set_buffer (<["messageType" := JStr "ping"]> m)
       else ret tt) >>
      let! buf := get_buffer in
      match buf !! "messageType" with
      | None =>
          log LInfo "worker" "Invalid message" >>
          handleError ∅ UnknownCommandError
      | Some v =>
          let! messageType := as_string v in
          let! err := Run_switch messageType in
          match err with
          | Some e =>
              let! buf' := get_buffer in
              handleError buf' e >> set_buffer (error_frame buf' e)
          | None => ret tt
          end
      end
  end.

(** One function deferred by [case buffer := <-in]: it logs a panic it
    recovers, then sends [DIE] and closes the socket. *)
Definition Run_deferred (panicking : bool) : Act unit :=
  (if panicking then log LError "worker" "panic" else ret tt) >>
  Scmd_send {| Command := DIE; Arguments := JNil |} >>
  Socket_Close.

(** The deferred functions of [Run], last registered first; the first one
    to run recovers the panic, the others see none. *)
Fixpoint Run_unwind (deferred : nat) (panicking : bool) (s : Session S D)
  : Session S D :=
  match deferred with
  | O => s
  | Datatypes.S n =>
      match Run_deferred panicking s with
      | Done _ s' => Run_unwind n false s'
      | Panicked s' => Run_unwind n true s'
      end
  end.

(** How far [Run] got on the events it was given: still in its select, or
    returned after a recovered panic, or taken down by a panic that no
    deferred function was there to recover. *)
Inductive RunExit := Selecting | Returned | Crashed.

(** [Run], on the events its select receives in order.  [deferred] counts
    the functions deferred so far: one more for every message from [in],
    none of them run before [Run] itself unwinds.  A [break] inside the
    select leaves the select, not the [for]: the loop has no exit, and the
    [DIE] and [Close] written after it are never reached. *)
Fixpoint Run_loop (events : list Incoming) (deferred : nat) (s : Session S D)
  : RunExit * Session S D :=
  match events with
  | [] => (Selecting, s)
  | FromCcmd cmd now :: rest =>
      match Run_Ccmd cmd now s with
      | Done _ s' => Run_loop rest deferred s'
      | Panicked s' =>
          match deferred with
          | O => (Crashed, s')
          | _ => (Returned, Run_unwind deferred true s')
          end
      end
  | FromIn b :: rest =>
      match Run_In b s with
      | Done _ s' => Run_loop rest (Datatypes.S deferred) s'
      | Panicked s' => (Returned, Run_unwind (Datatypes.S deferred) true s')
      end
  end.

Definition Run (events : list Incoming) (s : Session S D)
  : RunExit * Session S D :=
  Run_loop events 0 s.

(** What [websocket.Message.Receive] yields. *)
Inductive Received :=
| ReceiveError
| Frame (raw : string).

(** The effects of [sniffer] on a finished loop: log, [DIE], [Close]. *)
Definition sniffer_exit (msg : string) : list Event :=
  [Log LError "worker" msg;
   ScmdSend {| Command := DIE; Arguments := JNil |};
   SocketClose].

(** [sniffer], on the frames the socket yields in order: the maps it puts
    on [in], what it does itself, and whether its loop has ended. *)
Fixpoint sniffer (frames : list Received)
  : list (option JsMap) * list Event * bool :=
  match frames with
  | [] => ([], [], false)
  | ReceiveError :: _ => ([], sniffer_exit "Websocket Error", true)
  | Frame raw :: rest =>
      if 0 <? len raw then
        let info := if 5 <? len raw
                    then [Log LInfo "worker" "Socket receive"] else [] in
        match json_Unmarshal raw with
        | None => ([], info ++ sniffer_exit "Unparsable data", true)
        | Some buffer =>
            let info' :=
              match buffer with
              | Some m => if 10 <? Z.of_nat (size m)
                          then [Log LInfo "worker" "Socket send"] else []
              | None => []
              end in
            let '(sent, evs, ended) := sniffer rest in
            (buffer :: sent, info ++ info' ++ evs, ended)
        end
      else sniffer rest
  end.

(** A session with no server command: the sniffer feeds [Run]. *)
Definition serve (frames : list Received) (s : Session S D)
  : RunExit * Session S D :=
  Run (map FromIn (fst (fst (sniffer frames)))) s.

End Worker.

(** ** Reading a trace *)

Definition is_die `{Runtime} (e : Event) : bool :=
  match e with
  | ScmdSend cmd => Command cmd =? DIE
  | _ => false
  end.

Definition is_close (e : Event) : bool :=
  match e with SocketClose => true | _ => false end.

Definition is_log (e : Event) : bool :=
  match e with Log _ _ _ => true | _ => false end.

Definition is_frame (e : Event) : bool :=
  match e with SocketSend _ => true | _ => false end.

Definition count (p : Event → bool) (t : list Event) : nat :=
  length (filter (λ e, p e = true) t).

(** The trace without its log lines: what the client, the dispatcher and
    the store see. *)
Definition wire (t : list Event) : list Event :=
  filter (λ e, is_log e = false) t.

(** The session with more events at the end of its trace. *)
Definition after {S D} (s : Session S D) (evs : list Event) : Session S D :=
  {| state := state s; Uaid := Uaid s; buffer := buffer s;
     Store := Store s; Srv := Srv s; trace := trace s ++ evs |}.

(** The session with [m] as the message in hand. *)
Definition holding {S D} (s : Session S D) (m : JsMap) : Session S D :=
  {| state := state s; Uaid := Uaid s; buffer := m;
     Store := Store s; Srv := Srv s; trace := trace s |}.

(** The reply of [Ping] to a message of type ping. *)
Definition ping_reply : JsMap :=
  {[ "messageType" := JStr "ping"; "status" := JNum 200 ]}.

(** ** ChannelID patterns of the specification *)

(** One byte of the class [[0-9a-z_-]]. *)
Definition chid_byte (c : ascii) : bool :=
  is_digit c || is_lower c || Ascii.eqb c "_"%char || Ascii.eqb c "-"%char.

(** The pattern [^[0-9a-z_-]+$] of the specification. *)
Definition matches_chid_plus (s : string) : bool :=
  negb (String.eqb s "") && all_bytes chid_byte s.

(** The pattern [^[0-9a-z_-]*$]: no byte outside the class. *)
Definition matches_chid_star (s : string) : bool := all_bytes chid_byte s.

(** No byte 'A'..'Z': what a lower-cased string looks like. *)
Definition no_upper (s : string) : bool :=
  all_bytes (λ c, negb (is_upper c)) s.

(** ** A runtime and a backend to run the worker on examples *)

Definition quote : string := String (ascii_of_nat 34) EmptyString.

Definition ping_frame : string :=
  "{" +:+ quote +:+ "messageType" +:+ quote +:+ ":"
      +:+ quote +:+ "ping" +:+ quote +:+ "}".

Definition sample_ErrToStatus (e : error) : Z * string :=
  match e with
  | InvalidCommandError => (401, "Invalid Command")
  | InvalidDataError => (400, "Invalid Data")
  | MissingDataError => (422, "Missing Data")
  | UnknownCommandError => (405, "Unknown Command")
  | StorageError msg => (500, msg)
  end.

(** A decoder that knows three frames: the empty object, null and a ping. *)
Definition sample_Unmarshal (raw : string) : option (option JsMap) :=
  if String.eqb raw "{}" then Some (Some ∅)
  else if String.eqb raw "null" then Some None
  else if String.eqb raw ping_frame
       then Some (Some {[ "messageType" := JStr "ping" ]})
       else None.

#[local] Instance sample_runtime : Runtime := {|
  HELLO := 2; REGIS := 1; DIE := 3; FLUSH := 4;
  ErrToStatus := sample_ErrToStatus;
  unicode_ToLower := map_bytes lower_byte;
  json_Unmarshal := sample_Unmarshal;
|}.

(** The store keeps the version of every (uaid, channel) pair, latest
    first; deleting a pair that is not there is an error.  The server
    answers on [Scmd] with the replies it was given, in order. *)
Definition same_channel (uaid appid : string) (r : string * string * Z) : bool :=
  String.eqb (fst (fst r)) uaid && String.eqb (snd (fst r)) appid.

Fixpoint mem_remove (uaid appid : string) (st : list (string * string * Z))
  : list (string * string * Z) :=
  match st with
  | [] => []
  | r :: st' =>
      if same_channel uaid appid r then mem_remove uaid appid st'
      else r :: mem_remove uaid appid st'
  end.

Definition mem_register (uaid appid : string) (v : Z)
  (st : list (string * string * Z)) : option error * list (string * string * Z) :=
  (None, (uaid, appid, v) :: mem_remove uaid appid st).

Definition mem_delete (uaid appid : string) (st : list (string * string * Z))
  : option error * list (string * string * Z) :=
  if existsb (same_channel uaid appid) st
  then (None, mem_remove uaid appid st)
  else (Some (StorageError "No such channel"), st).

Definition canned_take (d : list PushCommand) : PushCommand * list PushCommand :=
  match d with
  | r :: d' => (r, d')
  | [] => ({| Command := 200; Arguments := JNil |}, [])
  end.

#[local] Instance mem_backend
  : Backend (list (string * string * Z)) (list PushCommand) := {|
  Store_SetUAIDHost := λ _ st, (None, st);
  Store_GetUpdates := λ _ _ st, ((None, None), st);
  Store_Ack := λ _ _ st, (None, st);
  Store_RegisterAppID := mem_register;
  Store_DeleteAppID := λ uaid appid _ st, mem_delete uaid appid st;
  Scmd_put := λ _ d, d;
  Scmd_take := canned_take;
  GenUUID4 := λ d, (("6ba7b810-9dad-41d1-80b4-00c04fd430c8", None), d);
|}.

Abbreviation MemSession := (Session (list (string * string * Z)) (list PushCommand)).

(** A session on the memory backend: nothing stored, nothing traced. *)
Definition fresh (st : Z) (uaid : string) (buf : JsMap)
  (replies : list PushCommand) : MemSession :=
  {| state := st; Uaid := uaid; buffer := buf; Store := [];
     Srv := replies; trace := [] |}.

(** A dispatcher answer that carries a minted endpoint. *)
Definition endpoint_reply : PushCommand :=
  {| Command := 200;
     Arguments := JMap {[ "pushEndpoint" := JStr "https://x/c1" ]} |}.

(** [n] bytes [c]. *)
Fixpoint bytes (n : nat) (c : ascii) : string :=
  match n with
  | O => EmptyString
  | Datatypes.S n' => String c (bytes n' c)
  end.

(** ** Invariants of computations *)

(** [c] keeps [I]: the session it ends in, finished or panicking, is in [I]
    whenever the one it starts from is. *)
Definition preserves {S D A} (I : Session S D → Prop) (c : M S D A) : Prop :=
  ∀ s, I s → I (final (c s)).

(** [c] always finishes: it is never left panicking. *)
Definition never_panics {S D A} (c : M S D A) : Prop :=
  ∀ s, ∃ a s', c s = Done a s'.

(** An event that is neither a die command nor the closing of the socket. *)
Definition calm `{Runtime} (e : Event) : bool :=
  negb (is_die e) && negb (is_close e).

(** The session has uaid [u] and has done only calm things since [t0]. *)
Definition undisturbed `{Runtime} {S D} (u : string) (t0 : list Event)
  (s : Session S D) : Prop :=
  Uaid s = u ∧ ∃ evs, trace s = t0 ++ evs ∧ forallb calm evs = true.

(** The message [received] from [in] is a map whose type is a string. *)
Definition typed (received : option JsMap) : Prop :=
  ∃ m t, received = Some m ∧ m !! "messageType" = Some (JStr t).

(** What [sniffer] forwards for one frame that decodes. *)
Definition forwarded `{Runtime} (f : Received) : list (option JsMap) :=
  match f with
  | ReceiveError => []
  | Frame raw =>
      if 0 <? len raw
      then match json_Unmarshal raw with Some b => [b] | None => [] end
      else []
  end.

(** A frame the sniffer survives: empty, or one that decodes. *)
Definition readable `{Runtime} (f : Received) : Prop :=
  match f with
  | ReceiveError => False
  | Frame raw => raw = "" ∨ ∃ b, json_Unmarshal raw = Some b
  end.

(** The worker's state field satisfies [P]. *)
Definition on_state {S D} (P : Z → Prop) (s : Session S D) : Prop :=
  P (state s).

(** A backend whose store refuses every operation. *)
Definition store_down : Backend unit (list PushCommand) := {|
  Store_SetUAIDHost := λ _ st, (Some (StorageError "store down"), st);
  Store_GetUpdates := λ _ _ st, ((None, Some (StorageError "store down")), st);
  Store_Ack := λ _ _ st, (Some (StorageError "store down"), st);
  Store_RegisterAppID := λ _ _ _ st, (Some (StorageError "store down"), st);
  Store_DeleteAppID := λ _ _ _ st, (Some (StorageError "store down"), st);
  Scmd_put := λ _ d, d;
  Scmd_take := canned_take;
  GenUUID4 := λ d, (("6ba7b810-9dad-41d1-80b4-00c04fd430c8", None), d);
|}.

(** A session on the backend that is down. *)
Definition stranded (st : Z) (uaid : string) (buf : JsMap)
  : Session unit (list PushCommand) :=
  {| state := st; Uaid := uaid; buffer := buf; Store := tt;
     Srv := []; trace := [] |}.

(** * Properties *)

Section Properties.
Context {S D : Type} `{Runtime} `{Backend S D}.

Implicit Types s : Session S D.

Lemma after_nil s : after s [] = s.
Proof. destruct s; unfold after; simpl. by rewrite app_nil_r. Qed.

Lemma after_after s e1 e2 : after (after s e1) e2 = after s (e1 ++ e2).
Proof. unfold after; simpl. by rewrite app_assoc. Qed.

(** C1, amended.  On a session whose uaid is empty, register, unregister
    and ack return invalid-command: no store call, no dispatcher command
    and no frame (unregister logs the refusal, the others leave the session
    as it was).  Ping has no such guard: it replies status 200 and returns no
    error. *)
Theorem C1_inactive_guard s :
  Uaid s = "" →
  Register s = Done (Some InvalidCommandError) s
  ∧ Ack s = Done (Some InvalidCommandError) s
  ∧ Unregister s
    = Done (Some InvalidCommandError)
           (after s [Log LError "worker" "Unregister failed, missing sock.uaid"])
  ∧ Ping s
    = Done None
           (after s [SocketSend {[ "messageType" := index (buffer s) "messageType";
                                   "status" := JNum 200 ]}]).
Proof.
  intros Hu.
  unfold Register, Ack, Unregister, Ping, recovering,
    Register_body, Ack_body, Unregister_body, bind, get_Uaid.
  rewrite Hu. simpl. done.
Qed.

(** ** Where the uaid is written *)

Lemma keeps_ret {A} (a : A) : @keeps_Uaid S D _ (ret a).
Proof. by intros s. Qed.

Lemma keeps_panic {A} : @keeps_Uaid S D A panic.
Proof. by intros s. Qed.

Lemma keeps_bind {A B} (c : M S D A) (k : A → M S D B) :
  @keeps_Uaid S D _ c → (∀ a, @keeps_Uaid S D _ (k a)) → @keeps_Uaid S D _ (bind c k).
Proof.
  intros Hc Hk s. unfold bind. specialize (Hc s).
  destruct (c s) as [a s'|s']; simpl in *; [|done].
  by rewrite Hk.
Qed.

Lemma keeps_emit e : @keeps_Uaid S D _ (emit e).
Proof. by intros s. Qed.

Lemma keeps_set_state v : @keeps_Uaid S D _ (set_state v).
Proof. by intros s. Qed.

Lemma keeps_set_buffer m : @keeps_Uaid S D _ (set_buffer m).
Proof. by intros s. Qed.

Lemma keeps_get_buffer : @keeps_Uaid S D _ get_buffer.
Proof. by intros s. Qed.

Lemma keeps_get_Uaid : @keeps_Uaid S D _ get_Uaid.
Proof. by intros s. Qed.

Lemma keeps_store_call {A} op (f : S → A * S) : @keeps_Uaid S D _ (store_call op f).
Proof. intros s. unfold store_call. by destruct (f (Store s)). Qed.

Lemma keeps_Scmd_send cmd : @keeps_Uaid S D _ (Scmd_send cmd).
Proof. by intros s. Qed.

Lemma keeps_Scmd_recv : @keeps_Uaid S D _ Scmd_recv.
Proof. intros s. unfold Scmd_recv. by destruct (Scmd_take (Srv s)). Qed.

Lemma keeps_as_string v : @keeps_Uaid S D _ (as_string v).
Proof. destruct v; apply keeps_ret || apply keeps_panic. Qed.

Lemma keeps_as_JsMap v : @keeps_Uaid S D _ (as_JsMap v).
Proof. destruct v; apply keeps_ret || apply keeps_panic. Qed.

Lemma keeps_deferring {A} (c : M S D A) d :
  @keeps_Uaid S D _ c → @keeps_Uaid S D _ d → @keeps_Uaid S D _ (deferring c d).
Proof.
  intros Hc Hd s. unfold deferring. specialize (Hc s).
  destruct (c s) as [a s'|s']; simpl in *; specialize (Hd s');
    destruct (d s'); simpl in *; congruence.
Qed.

Lemma keeps_recovering c : @keeps_Uaid S D _ c → @keeps_Uaid S D _ (recovering c).
Proof.
  intros Hc s. unfold recovering. specialize (Hc s).
  destruct (c s) as [a s'|s']; simpl in *; done.
Qed.

Ltac keeps :=
  repeat first
    [ apply keeps_ret | apply keeps_panic | apply keeps_emit
    | apply keeps_set_state | apply keeps_set_buffer | apply keeps_get_buffer
    | apply keeps_get_Uaid | apply keeps_store_call | apply keeps_Scmd_send
    | apply keeps_Scmd_recv | apply keeps_as_string | apply keeps_as_JsMap
    | apply keeps_deferring | apply keeps_recovering
    | apply keeps_bind; [|intros ?]
    | match goal with
      | |- keeps_Uaid (if ?b then _ else _) => destruct b
      | |- keeps_Uaid (match ?x with _ => _ end) => destruct x
      end ].

Lemma keeps_handleError m e : @keeps_Uaid S D _ (handleError m e).
Proof. unfold handleError, log, Socket_Send. keeps. Qed.

Lemma keeps_Flush la : @keeps_Uaid S D _ (Flush la).
Proof.
  unfold Flush, log, Socket_Send, Socket_Close.
  keeps; apply keeps_handleError.
Qed.

Lemma keeps_Ack : @keeps_Uaid S D _ Ack.
Proof. unfold Ack, Ack_body, log. keeps; apply keeps_Flush. Qed.

Lemma keeps_Register : @keeps_Uaid S D _ Register.
Proof. unfold Register, Register_body, log, Socket_Send. keeps. Qed.

Lemma keeps_Unregister : @keeps_Uaid S D _ Unregister.
Proof. unfold Unregister, Unregister_body, log, Socket_Send. keeps. Qed.

Lemma keeps_Ping : @keeps_Uaid S D _ Ping.
Proof. unfold Ping, Socket_Send. keeps. Qed.

Lemma keeps_fixed {A} u (c : M S D A) : keeps_Uaid c → fixed_Uaid u c.
Proof. intros Hc s Hs. by rewrite Hc. Qed.

Lemma fixed_bind {A B} u (c : M S D A) (k : A → M S D B) :
  fixed_Uaid u c → (∀ a, fixed_Uaid u (k a)) → fixed_Uaid u (bind c k).
Proof.
  intros Hc Hk s Hs. unfold bind. specialize (Hc s Hs).
  destruct (c s) as [a s'|s']; simpl in *; [|done].
  by apply Hk.
Qed.

Lemma fixed_get_Uaid {B} u (k : string → M S D B) :
  fixed_Uaid u (k u) → fixed_Uaid u (bind get_Uaid k).
Proof. intros Hk s Hs. unfold bind, get_Uaid. rewrite Hs. by apply Hk. Qed.

Lemma fixed_recovering u (c : M S D (option error)) :
  fixed_Uaid u c → fixed_Uaid u (recovering c).
Proof.
  intros Hc s Hs. unfold recovering. specialize (Hc s Hs).
  destruct (c s) as [a s'|s']; simpl in *; done.
Qed.

Lemma len_pos u : u ≠ "" → (0 <? len u) = true ∧ (len u =? 0) = false.
Proof.
  intros Hu. destruct u as [|c u]; [done|].
  unfold len; simpl String.length. split; [apply Z.ltb_lt | apply Z.eqb_neq]; lia.
Qed.

Lemma fixed_Hello u : u ≠ "" → @fixed_Uaid S D _ u Hello.
Proof.
  intros Hu. destruct (len_pos u Hu) as [Hpos Hz].
  unfold Hello, Hello_body. apply fixed_recovering.
  apply fixed_bind; [apply keeps_fixed; keeps | intros data0].
  apply fixed_bind; [apply keeps_fixed; keeps | intros _].
  apply fixed_bind; [apply keeps_fixed; keeps | intros data].
  destruct (is_nil _); [apply keeps_fixed; keeps|].
  apply fixed_get_Uaid. rewrite Hpos, Hz.
  apply keeps_fixed. unfold log, Socket_Send. keeps.
Qed.

Lemma fixed_Run_switch u t : u ≠ "" → @fixed_Uaid S D _ u (Run_switch t).
Proof.
  intros Hu. unfold Run_switch.
  repeat match goal with
         | |- fixed_Uaid _ (if ?b then _ else _) => destruct b
         end;
    first [ by apply fixed_Hello
          | apply keeps_fixed;
            first [ apply keeps_Ack | apply keeps_Register
                  | apply keeps_Unregister | apply keeps_Ping
                  | unfold log; keeps ] ].
Qed.

Lemma fixed_Run_In u b : u ≠ "" → @fixed_Uaid S D _ u (Run_In b).
Proof.
  intros Hu. unfold Run_In. destruct b as [m|]; [|by apply keeps_fixed; keeps].
  apply fixed_bind; [apply keeps_fixed; keeps | intros _].
  apply fixed_bind; [apply keeps_fixed; unfold log; keeps | intros _].
  apply fixed_bind; [apply keeps_fixed; keeps | intros _].
  apply fixed_bind; [apply keeps_fixed; keeps | intros buf].
  destruct (buf !! "messageType") as [v|].
  - apply fixed_bind; [apply keeps_fixed; keeps | intros t].
    apply fixed_bind; [by apply fixed_Run_switch | intros err].
    apply keeps_fixed. destruct err; [|keeps].
    apply keeps_bind; [keeps | intros ?].
    apply keeps_bind; [apply keeps_handleError | intros ?; keeps].
  - apply keeps_fixed. unfold log. apply keeps_bind; [keeps|intros ?].
    apply keeps_handleError.
Qed.

Lemma keeps_Run_Ccmd cmd now : @keeps_Uaid S D _ (Run_Ccmd cmd now).
Proof.
  unfold Run_Ccmd, log. apply keeps_bind; [keeps | intros _].
  destruct (_ =? _); [|keeps].
  apply keeps_bind; [keeps | intros _; apply keeps_Flush].
Qed.

Lemma keeps_Run_deferred p : @keeps_Uaid S D _ (Run_deferred p).
Proof. unfold Run_deferred, log, Socket_Close. keeps. Qed.

Lemma Run_unwind_Uaid n p s : Uaid (Run_unwind n p s) = Uaid s.
Proof.
  revert p s. induction n as [|n IH]; intros p s; simpl; [done|].
  pose proof (keeps_Run_deferred p s) as Hd.
  destruct (Run_deferred p s); simpl in Hd; by rewrite IH.
Qed.

Lemma Run_loop_Uaid events n s :
  Uaid s ≠ "" → Uaid (snd (Run_loop events n s)) = Uaid s.
Proof.
  revert n s. induction events as [|ev rest IH]; intros n s Hu; cbn [Run_loop];
    [done|].
  destruct ev as [cmd now|b].
  - pose proof (keeps_Run_Ccmd cmd now s) as Hc.
    destruct (Run_Ccmd cmd now s) as [[] s'|s']; simpl in Hc.
    + rewrite IH; congruence.
    + destruct n; cbn [snd]; [done|].
      by rewrite Run_unwind_Uaid.
  - pose proof (fixed_Run_In (Uaid s) b Hu s eq_refl) as Hc.
    destruct (Run_In b s) as [[] s'|s']; simpl in Hc.
    + rewrite IH; congruence.
    + cbn [snd]. by rewrite Run_unwind_Uaid.
Qed.

(** C2, amended.  Once the session's uaid is non-empty it never changes:
    no hello and no run of the loop, whatever it receives, writes it.  A
    hello that presents a different non-empty uaid and carries channelIDs
    returns invalid-command and does nothing else; without channelIDs it
    returns missing-data, the uaid field being looked at only after that
    check. *)
Theorem C2_uaid_never_changes s :
  Uaid s ≠ "" →
  Uaid (final (Hello s)) = Uaid s
  ∧ (∀ events n, Uaid (snd (Run_loop events n s)) = Uaid s)
  ∧ (∀ u, buffer s !! "uaid" = Some (JStr u) → u ≠ "" → u ≠ Uaid s →
       Hello s
       = Done (Some (if is_nil (index (buffer s) "channelIDs")
                     then MissingDataError else InvalidCommandError)) s).
Proof.
  intros Hu. split; [by apply fixed_Hello|]. split.
  { intros events n. by apply Run_loop_Uaid. }
  intros u Hb Hne Hdiff.
  destruct (len_pos _ Hu) as [Hpos _]. destruct (len_pos _ Hne) as [Hposu _].
  unfold Hello, recovering, Hello_body, bind, get_buffer.
  rewrite Hb. simpl.
  destruct (is_nil (index (buffer s) "channelIDs")); [done|].
  unfold get_Uaid. rewrite Hpos. unfold index. rewrite Hb. simpl.
  rewrite Hposu. simpl.
  destruct (String.eqb_spec (Uaid s) u) as [Heq|_]; [congruence|].
  reflexivity.
Qed.

Lemma eqb_empty u : u ≠ "" → String.eqb u "" = false.
Proof. intros Hu. by destruct u. Qed.

Lemma index_lookup (m : JsMap) k v : m !! k = Some v → index m k = v.
Proof. unfold index. by intros ->. Qed.

(** C3, amended.  On a session with a uaid, an unregister message whose
    channelID is a string is answered with status 200 and the handler
    returns no error, whatever Store.DeleteAppID returns and whether or
    not the channel was registered. *)
Theorem C3_unregister_replies_200 s appid :
  Uaid s ≠ "" →
  buffer s !! "channelID" = Some (JStr appid) →
  Unregister s
  = Done None
      {| state := state s; Uaid := Uaid s; buffer := buffer s;
         Store := snd (Store_DeleteAppID (Uaid s) appid false (Store s));
         Srv := Srv s;
         trace := trace s ++
           [StoreCall (OpDeleteAppID (Uaid s) appid false);
            Log LDebug "worker" "sending response";
            SocketSend {[ "messageType" := index (buffer s) "messageType";
                          "status" := JNum 200;
                          "channelID" := JStr appid ]}] |}.
Proof.
  intros Hu Hc.
  unfold Unregister, recovering, Unregister_body, bind, get_Uaid, get_buffer.
  rewrite (eqb_empty _ Hu), (index_lookup _ _ _ Hc). simpl.
  unfold store_call.
  destruct (Store_DeleteAppID (Uaid s) appid false (Store s)) as [e st].
  simpl. by rewrite <- !app_assoc.
Qed.

(** C10.  When Store.RegisterAppID has succeeded and the dispatcher's
    answer carries no string pushEndpoint, register returns invalid-data,
    sends no frame, and the store is left as RegisterAppID made it: nothing
    undoes the registration. *)
Theorem C10_register_not_atomic s appid st' result d' :
  Uaid s ≠ "" →
  buffer s !! "channelID" = Some (JStr appid) →
  len appid ≤ CHID_MAX_LEN →
  filter_Find (ToLower appid) = None →
  Store_RegisterAppID (Uaid s) appid 0 (Store s) = (None, st') →
  Scmd_take (Scmd_put {| Command := REGIS; Arguments := JMap (buffer s) |}
                      (Srv s)) = (result, d') →
  (∀ args e, Arguments result = JMap args →
             args !! "pushEndpoint" ≠ Some (JStr e)) →
  Register s
  = Done (Some InvalidDataError)
      {| state := state s; Uaid := Uaid s; buffer := buffer s;
         Store := st'; Srv := d';
         trace := trace s ++
           [StoreCall (OpRegisterAppID (Uaid s) appid 0);
            ScmdSend {| Command := REGIS; Arguments := JMap (buffer s) |};
            Log LDebug "worker" "Server returned %s";
            Log LError "worker" "Unhandled error"] |}.
Proof.
  intros Hu Hc Hlen Hfilter Hreg Hsrv Hnone.
  unfold Register, recovering, Register_body, bind, get_Uaid, get_buffer.
  rewrite (eqb_empty _ Hu), (index_lookup _ _ _ Hc). simpl.
  replace (CHID_MAX_LEN <? len appid) with false
    by (symmetry; apply Z.ltb_ge; exact Hlen).
  rewrite Hfilter. simpl.
  unfold store_call. rewrite Hreg. simpl.
  unfold Scmd_recv. simpl. rewrite Hsrv. simpl.
  destruct (Arguments result) as [| | | | |args] eqn:Hargs; simpl;
    try by rewrite <- !app_assoc.
  unfold index.
  destruct (args !! "pushEndpoint") as [[| | |e| |]|] eqn:He; simpl;
    try by rewrite <- !app_assoc.
  by destruct (Hnone args e).
Qed.

(** ** The ChannelID filter *)

Lemma lower_byte_not_upper c : is_upper (lower_byte c) = false.
Proof. by destruct c as [[] [] [] [] [] [] [] []]. Qed.

Lemma map_lower_no_upper x : no_upper (map_bytes lower_byte x) = true.
Proof.
  induction x as [|c x IH]; [done|].
  unfold no_upper in *. simpl. by rewrite lower_byte_not_upper, IH.
Qed.

Lemma ToLower_no_upper x :
  (∀ y, no_upper (unicode_ToLower y) = true) → no_upper (ToLower x) = true.
Proof.
  intros Hy. unfold ToLower. destruct (isASCII x); [apply map_lower_no_upper|done].
Qed.

Lemma filter_Find_None b :
  filter_Find b = None ↔ all_bytes word_or_hyphen b = true.
Proof.
  induction b as [|c b IH]; simpl; [done|].
  destruct (word_or_hyphen c); simpl; [done|]. split; done.
Qed.

Lemma word_class_lowered b :
  no_upper b = true → all_bytes word_or_hyphen b = matches_chid_star b.
Proof.
  unfold no_upper, matches_chid_star.
  induction b as [|c b IH]; simpl; [done|].
  intros [Hc Hb]%andb_prop. rewrite (IH Hb). f_equal.
  unfold word_or_hyphen, chid_byte.
  apply negb_true_iff in Hc. rewrite Hc. by rewrite orb_false_r.
Qed.

(** C5, amended.  On a session with a uaid, register given a string
    channelID calls Store.RegisterAppID exactly when the channelID is at
    most 100 bytes long and its lower-cased form has no byte outside
    [0-9a-z_-], that is, matches ^[0-9a-z_-]*$ (the empty channelID
    passes); otherwise it returns invalid-data and touches nothing. *)
Theorem C5_register_validates s appid :
  (∀ y, no_upper (unicode_ToLower y) = true) →
  Uaid s ≠ "" →
  buffer s !! "channelID" = Some (JStr appid) →
  if (len appid <=? 100) && matches_chid_star (ToLower appid)
  then ∃ err s' rest,
         Register s = Done err s'
         ∧ trace s' = trace s
                      ++ StoreCall (OpRegisterAppID (Uaid s) appid 0) :: rest
  else Register s = Done (Some InvalidDataError) s.
Proof.
  intros Hlow Hu Hc.
  rewrite <- (word_class_lowered _ (ToLower_no_upper appid Hlow)).
  unfold Register, recovering, Register_body, bind, get_Uaid, get_buffer.
  rewrite (eqb_empty _ Hu), (index_lookup _ _ _ Hc). simpl.
  unfold CHID_MAX_LEN. rewrite (Z.ltb_antisym (len appid) 100).
  destruct (len appid <=? 100); simpl; [|done].
  destruct (all_bytes word_or_hyphen (ToLower appid)) eqn:Hall.
  - apply filter_Find_None in Hall. rewrite Hall. simpl.
    unfold store_call.
    destruct (Store_RegisterAppID (Uaid s) appid 0 (Store s)) as [[e|] st].
    { simpl. eexists _, _, _. split; [done|]. simpl.
      rewrite <- !app_assoc. done. }
    simpl. unfold Scmd_recv. simpl.
    destruct (Scmd_take _) as [result d'].
    destruct (Arguments result) as [| | | | |args]; simpl;
      try (eexists _, _, _; split; [done|]; simpl; by rewrite <- !app_assoc).
    destruct (index args "pushEndpoint"); simpl;
      eexists _, _, _; (split; [done|]); simpl; by rewrite <- !app_assoc.
  - destruct (filter_Find (ToLower appid)) eqn:Hf.
    + done.
    + apply filter_Find_None in Hf. congruence.
Qed.

(** ** The run loop *)

Lemma recovering_Done (c : M S D (option error)) s :
  ∃ e s', recovering c s = Done e s'.
Proof. unfold recovering. destruct (c s); simpl; eauto. Qed.

Lemma handleError_Done m e s :
  handleError m e s
  = Done tt (after s [Log LInfo "worker" "Sending error";
                      SocketSend (error_frame m e)]).
Proof.
  unfold handleError, error_frame, bind, log, Socket_Send, emit, after. simpl.
  by rewrite <- !app_assoc.
Qed.

Lemma Run_switch_Done t s : ∃ e s', Run_switch t s = Done e s'.
Proof.
  unfold Run_switch.
  repeat match goal with
         | |- context [if ?b then _ else _] => destruct b
         end;
    try apply recovering_Done; unfold Ping, bind; simpl; eauto.
Qed.

Lemma lookup_size_pos (m : JsMap) k v :
  m !! k = Some v → (0 <? Z.of_nat (size m)) = true ∧ (Z.of_nat (size m) =? 0) = false.
Proof.
  intros Hk.
  assert (size m ≠ 0%nat) as Hsz.
  { intros ->%map_size_empty_iff. by rewrite lookup_empty in Hk. }
  split; [apply Z.ltb_lt | apply Z.eqb_neq]; lia.
Qed.

(** What [Run] has done to a message with a string type by the time the
    switch is entered. *)
Lemma Run_In_typed m t s :
  m !! "messageType" = Some (JStr t) →
  Run_In (Some m) s
  = match Run_switch t (after (holding s m)
                          [Log LInfo "worker" "Client Read buffer, %s %d"]) with
    | Done (Some e) s' =>
        Done tt (holding (after s' [Log LInfo "worker" "Sending error";
                                    SocketSend (error_frame (buffer s') e)])
                         (error_frame (buffer s') e))
    | Done None s' => Done tt s'
    | Panicked s' => Panicked s'
    end.
Proof.
  intros Ht. destruct (lookup_size_pos _ _ _ Ht) as [Hpos Hz].
  unfold Run_In, bind, set_buffer. rewrite Hpos, Hz. simpl.
  unfold get_buffer. simpl. rewrite Ht. simpl.
  unfold after, holding. simpl.
  destruct (Run_switch t _) as [[e|] s'|s']; [|done|done].
  by rewrite <- !app_assoc.
Qed.

(** C4, amended.  A message whose messageType is a string never brings
    the run loop down: the loop goes on to the later messages.  When the
    body of hello, ack, register or unregister panics on it, the handler
    returns invalid-data and the error reply for invalid-data is sent. *)
Theorem C4_handler_panic_recovered s m t rest n :
  m !! "messageType" = Some (JStr t) →
  (∃ s', Run_In (Some m) s = Done tt s'
         ∧ Run_loop (FromIn (Some m) :: rest) n s
           = Run_loop rest (Datatypes.S n) s')
  ∧ ∀ body s1,
      (ToLower t, body) ∈ [ ("hello", Hello_body); ("ack", Ack_body);
                            ("register", Register_body);
                            ("unregister", Unregister_body) ] →
      body (after (holding s m)
              [Log LInfo "worker" "Client Read buffer, %s %d"])
      = Panicked s1 →
      recovering body (after (holding s m)
                         [Log LInfo "worker" "Client Read buffer, %s %d"])
      = Done (Some InvalidDataError)
             (after s1 [Log LError "worker" "Unhandled error"])
      ∧ Run_In (Some m) s
        = Done tt (holding
                     (after s1 [Log LError "worker" "Unhandled error";
                                Log LInfo "worker" "Sending error";
                                SocketSend (error_frame (buffer s1)
                                                        InvalidDataError)])
                     (error_frame (buffer s1) InvalidDataError)).
Proof.
  intros Ht. split.
  - assert (∃ s', Run_In (Some m) s = Done tt s') as [s' Hs'].
    { rewrite (Run_In_typed _ _ _ Ht).
      destruct (Run_switch_Done t
                  (after (holding s m)
                     [Log LInfo "worker" "Client Read buffer, %s %d"]))
        as (e & s' & ->).
      destruct e; eauto. }
    exists s'. split; [done|]. cbn [Run_loop]. by rewrite Hs'.
  - intros body s1 Hin Hp.
    assert (recovering body (after (holding s m)
                               [Log LInfo "worker" "Client Read buffer, %s %d"])
            = Done (Some InvalidDataError)
                   (after s1 [Log LError "worker" "Unhandled error"])) as Hrec.
    { unfold recovering. by rewrite Hp. }
    split; [done|].
    rewrite (Run_In_typed _ _ _ Ht). unfold Run_switch.
    rewrite !elem_of_cons, elem_of_nil in Hin.
    destruct Hin as [Hin|[Hin|[Hin|[Hin|[]]]]];
      injection Hin as -> ->; simpl;
      [ unfold Hello | unfold Ack | unfold Register | unfold Unregister ];
      rewrite Hrec; cbn [after buffer]; rewrite after_after; done.
Qed.

Lemma wire_app t1 t2 : wire (t1 ++ t2) = wire t1 ++ wire t2.
Proof. unfold wire. apply filter_app. Qed.

Lemma Run_In_empty_object s :
  Run_In (Some ∅) s
  = Done tt (after (holding s {[ "messageType" := JStr "ping" ]})
               [SocketSend ping_reply]).
Proof.
  unfold Run_In, bind, set_buffer. rewrite map_size_empty. simpl.
  unfold get_buffer. simpl. rewrite lookup_insert_eq. simpl.
  unfold Ping, bind, get_buffer. simpl.
  unfold index. rewrite lookup_insert_eq. done.
Qed.

Lemma Run_In_ping s :
  Run_In (Some {[ "messageType" := JStr "ping" ]}) s
  = Done tt (after (holding s {[ "messageType" := JStr "ping" ]})
               [Log LInfo "worker" "Client Read buffer, %s %d";
                SocketSend ping_reply]).
Proof.
  rewrite (Run_In_typed _ "ping"); [|apply lookup_singleton_eq].
  simpl. unfold Ping, bind, get_buffer. simpl.
  unfold index. rewrite lookup_singleton_eq. simpl.
  unfold after. simpl. by rewrite <- !app_assoc.
Qed.

Lemma sniffer_object raw m :
  raw ≠ "" → json_Unmarshal raw = Some (Some m) →
  fst (fst (sniffer [Frame raw])) = [Some m].
Proof.
  intros Hraw Hdec. destruct (len_pos _ Hraw) as [Hpos _].
  cbn [sniffer]. rewrite Hpos, Hdec. done.
Qed.

(** C7, amended.  A frame with an empty payload is skipped by the sniffer:
    nothing is put on the inbound channel for it and nothing is replied.
    It is the frame that decodes to the empty object which the run loop
    serves as a ping: the message becomes {messageType: ping} and the
    client is sent messageType ping with status 200, exactly as for the
    ping frame, the one difference being the log line written for a
    non-empty message. *)
Theorem C7_empty_object_is_ping s raw1 raw2 rest :
  raw1 ≠ "" → json_Unmarshal raw1 = Some (Some ∅) →
  raw2 ≠ "" → json_Unmarshal raw2 = Some (Some {[ "messageType" := JStr "ping" ]}) →
  sniffer (Frame "" :: rest) = sniffer rest
  ∧ serve (Frame "" :: rest) s = serve rest s
  ∧ serve [Frame raw1] s
    = (Selecting, after (holding s {[ "messageType" := JStr "ping" ]})
                        [SocketSend ping_reply])
  ∧ serve [Frame raw2] s
    = (Selecting, after (holding s {[ "messageType" := JStr "ping" ]})
                        [Log LInfo "worker" "Client Read buffer, %s %d";
                         SocketSend ping_reply])
  ∧ wire (trace (snd (serve [Frame raw1] s)))
    = wire (trace (snd (serve [Frame raw2] s))).
Proof.
  intros Hraw1 Hdec1 Hraw2 Hdec2.
  assert (serve [Frame raw1] s
          = (Selecting, after (holding s {[ "messageType" := JStr "ping" ]})
                              [SocketSend ping_reply])) as H1.
  { unfold serve. rewrite (sniffer_object _ _ Hraw1 Hdec1).
    unfold Run. cbn [map Run_loop]. by rewrite Run_In_empty_object. }
  assert (serve [Frame raw2] s
          = (Selecting, after (holding s {[ "messageType" := JStr "ping" ]})
                              [Log LInfo "worker" "Client Read buffer, %s %d";
                               SocketSend ping_reply])) as H2.
  { unfold serve. rewrite (sniffer_object _ _ Hraw2 Hdec2).
    unfold Run. cbn [map Run_loop]. by rewrite Run_In_ping. }
  split; [done|]. split; [done|]. split; [done|]. split; [done|].
  rewrite H1, H2. cbn [snd]. unfold after, holding. cbn [trace].
  by rewrite !wire_app.
Qed.

(** ** Flush and hello on a session without uaid *)

(** C8.  What Flush does on a session whose uaid is empty: it logs, sends
    die and closes the socket, and then goes on to call Store.GetUpdates
    with the empty uaid, the branch having no return. *)
Theorem C8_flush_goes_on s lastAccessed :
  Uaid s = "" →
  ∃ s' rest,
    Flush lastAccessed s = Done tt s'
    ∧ trace s' = trace s
                 ++ [Log LError "worker" "Undefined UAID for socket. Aborting.";
                     ScmdSend {| Command := DIE; Arguments := JNil |};
                     SocketClose;
                     StoreCall (OpGetUpdates "" lastAccessed)]
                 ++ rest.
Proof.
  intros Hu. unfold Flush, deferring, bind, get_Uaid. rewrite Hu. simpl.
  unfold store_call. simpl.
  destruct (Store_GetUpdates "" lastAccessed (Store s)) as [[upd [e|]] st]; simpl.
  - eexists _, _. split; [done|]. simpl. by rewrite <- !app_assoc.
  - destruct upd; simpl; eexists _, _; (split; [done|]); simpl;
      by rewrite <- !app_assoc.
Qed.

(** C6.  What hello does on a session without uaid when the message
    presents a uaid longer than 100 bytes: it returns invalid-data, and the
    presented uaid has already been stored in the session by then. *)
Theorem C6_overlong_uaid_stored s u :
  Uaid s = "" →
  buffer s !! "uaid" = Some (JStr u) →
  is_nil (index (buffer s) "channelIDs") = false →
  UAID_MAX_LEN < len u →
  Hello s
  = Done (Some InvalidDataError)
      {| state := state s; Uaid := u; buffer := buffer s;
         Store := Store s; Srv := Srv s; trace := trace s |}.
Proof.
  intros Hu Hb Hc Hlen.
  unfold Hello, recovering, Hello_body, bind, get_buffer.
  rewrite Hb. simpl. rewrite Hc. unfold get_Uaid. rewrite Hu. simpl.
  rewrite (index_lookup _ _ _ Hb). simpl.
  replace (UAID_MAX_LEN <? len u) with true
    by (symmetry; apply Z.ltb_lt; exact Hlen).
  done.
Qed.

End Properties.

(** * The worker on the memory backend *)

(** C1 as stated fails for ping: on an inactive session with an empty uaid
    ping does not return invalid-command, it replies status 200. *)
Lemma C1_ping_not_guarded :
  let s := fresh INACTIVE "" {[ "messageType" := JStr "ping" ]} [] in
  state s = INACTIVE ∧ Uaid s = ""
  ∧ Ping s = Done None (after s [SocketSend ping_reply])
  ∧ ∀ s', Ping s ≠ Done (Some InvalidCommandError) s'.
Proof.
  cbn zeta. split; [done|]. split; [done|]. split.
  - vm_compute. reflexivity.
  - intros s' Heq. vm_compute in Heq. discriminate Heq.
Qed.

Lemma C1_witness :
  let s := fresh INACTIVE "" {[ "messageType" := JStr "register";
                                "channelID" := JStr "c1" ]} [] in
  Uaid s = ""
  ∧ Register s = Done (Some InvalidCommandError) s
  ∧ Ack s = Done (Some InvalidCommandError) s.
Proof.
  cbn zeta. split; [reflexivity|].
  destruct (C1_inactive_guard
              (fresh INACTIVE "" {[ "messageType" := JStr "register";
                                    "channelID" := JStr "c1" ]} [])
              eq_refl) as (Hr & Ha & _).
  split; [exact Hr | exact Ha].
Defined.

(** C2 as stated fails for a hello without channelIDs: presenting a
    different non-empty uaid, it returns missing-data, not
    invalid-command. *)
Lemma C2_hello_without_channelIDs :
  let s := fresh ACTIVE "a" {[ "messageType" := JStr "hello";
                               "uaid" := JStr "b" ]} [] in
  Hello s = Done (Some MissingDataError) s
  ∧ ∀ s', Hello s ≠ Done (Some InvalidCommandError) s'.
Proof.
  cbn zeta. split.
  - vm_compute. reflexivity.
  - intros s' Heq. vm_compute in Heq. discriminate Heq.
Qed.

Lemma C2_witness :
  let s := fresh ACTIVE "a" {[ "messageType" := JStr "hello";
                               "channelIDs" := JArr [];
                               "uaid" := JStr "b" ]} [] in
  Uaid s ≠ ""
  ∧ Uaid (final (Hello s)) = "a"
  ∧ Hello s = Done (Some InvalidCommandError) s.
Proof.
  cbn zeta.
  assert ("a" ≠ "") as Hne by discriminate.
  split; [exact Hne|].
  destruct (C2_uaid_never_changes
              (fresh ACTIVE "a" {[ "messageType" := JStr "hello";
                                   "channelIDs" := JArr [];
                                   "uaid" := JStr "b" ]} [])
              Hne) as (Hk & _ & Hrej).
  split; [exact Hk|].
  apply (Hrej "b"); [vm_compute; reflexivity | discriminate | discriminate].
Defined.

(** C3 as stated fails for a channelID that is not a string: unregister
    returns invalid-data and sends no status 200. *)
Lemma C3_unregister_number :
  let s := fresh ACTIVE "u" {[ "messageType" := JStr "unregister";
                               "channelID" := JNum 5 ]} [] in
  Unregister s
  = Done (Some InvalidDataError) (after s [Log LError "worker" "Unhandled error"])
  ∧ count is_frame (trace (final (Unregister s))) = 0%nat.
Proof. cbn zeta. split; vm_compute; reflexivity. Qed.

Lemma C3_witness :
  let s := fresh ACTIVE "u" {[ "messageType" := JStr "unregister";
                               "channelID" := JStr "never-registered" ]} [] in
  Uaid s ≠ ""
  ∧ fst (Store_DeleteAppID "u" "never-registered" false (Store s))
    = Some (StorageError "No such channel")
  ∧ ∃ s', Unregister s = Done None s'
          ∧ wire (trace s')
            = [StoreCall (OpDeleteAppID "u" "never-registered" false);
               SocketSend {[ "messageType" := JStr "unregister";
                             "status" := JNum 200;
                             "channelID" := JStr "never-registered" ]}].
Proof.
  cbn zeta.
  assert ("u" ≠ "") as Hne by discriminate.
  split; [exact Hne|]. split; [vm_compute; reflexivity|].
  eexists. split.
  - apply (C3_unregister_replies_200
             (fresh ACTIVE "u" {[ "messageType" := JStr "unregister";
                                  "channelID" := JStr "never-registered" ]} [])
             "never-registered" Hne).
    vm_compute. reflexivity.
  - vm_compute. reflexivity.
Defined.

(** C4 as stated fails for a messageType that is not a string: the panic
    is raised in the run loop itself, no invalid-data reply is sent, the
    loop unwinds (die, close) and the ping that follows is never served. *)
Lemma C4_run_panics :
  let s := fresh ACTIVE "u" ∅ [] in
  let bad : JsMap := {[ "messageType" := JNum 5 ]} in
  Run [FromIn (Some bad); FromIn (Some {[ "messageType" := JStr "ping" ]})] s
  = (Returned,
     after (holding s bad)
       [Log LInfo "worker" "Client Read buffer, %s %d";
        Log LError "worker" "panic";
        ScmdSend {| Command := DIE; Arguments := JNil |};
        SocketClose]).
Proof. cbn zeta. vm_compute. reflexivity. Qed.

Lemma C4_witness :
  let s := fresh ACTIVE "u" ∅ [] in
  let m : JsMap := {[ "messageType" := JStr "register"; "channelID" := JNum 5 ]} in
  let s0 := after (holding s m) [Log LInfo "worker" "Client Read buffer, %s %d"] in
  m !! "messageType" = Some (JStr "register")
  ∧ Register_body s0 = Panicked s0
  ∧ Run_In (Some m) s
    = Done tt (holding
                 (after s0 [Log LError "worker" "Unhandled error";
                            Log LInfo "worker" "Sending error";
                            SocketSend (error_frame m InvalidDataError)])
                 (error_frame m InvalidDataError))
  ∧ Run [FromIn (Some m); FromIn (Some {[ "messageType" := JStr "ping" ]})] s
    = Run_loop [FromIn (Some {[ "messageType" := JStr "ping" ]})] 1
        (holding
           (after s0 [Log LError "worker" "Unhandled error";
                      Log LInfo "worker" "Sending error";
                      SocketSend (error_frame m InvalidDataError)])
           (error_frame m InvalidDataError)).
Proof.
  cbn zeta.
  set (s := fresh ACTIVE "u" ∅ []).
  set (m := ({[ "messageType" := JStr "register"; "channelID" := JNum 5 ]} : JsMap)).
  assert (m !! "messageType" = Some (JStr "register")) as Ht
    by (vm_compute; reflexivity).
  assert (Register_body
            (after (holding s m) [Log LInfo "worker" "Client Read buffer, %s %d"])
          = Panicked
              (after (holding s m) [Log LInfo "worker" "Client Read buffer, %s %d"]))
    as Hp by (vm_compute; reflexivity).
  destruct (C4_handler_panic_recovered s m "register"
              [FromIn (Some {[ "messageType" := JStr "ping" ]})] 0 Ht)
    as ((s' & Hs' & Hloop) & Hrec).
  destruct (Hrec Register_body _
              ltac:(do 2 right; left) Hp) as (_ & Hrun).
  split; [exact Ht|]. split; [exact Hp|]. split; [exact Hrun|].
  unfold Run. rewrite Hloop. f_equal.
  rewrite Hrun in Hs'. by injection Hs' as <-.
Defined.

(** C5 as stated fails for the empty channelID: it does not match
    ^[0-9a-z_-]+$, yet register accepts it and registers it. *)
Lemma C5_empty_channelID :
  let s := fresh ACTIVE "u" {[ "messageType" := JStr "register";
                               "channelID" := JStr "" ]} [endpoint_reply] in
  matches_chid_plus (ToLower "") = false
  ∧ ∃ s', Register s = Done None s'
          ∧ Store s' = [("u", "", 0)]
          ∧ StoreCall (OpRegisterAppID "u" "" 0) ∈ trace s'.
Proof.
  cbn zeta. split; [reflexivity|]. eexists. split; [vm_compute; reflexivity|].
  split; [vm_compute; reflexivity|]. vm_compute. left.
Qed.

Lemma C5_witness :
  let s := fresh ACTIVE "u" {[ "messageType" := JStr "register";
                               "channelID" := JStr "bad/id" ]} [endpoint_reply] in
  (∀ y, no_upper (unicode_ToLower y) = true)
  ∧ Uaid s ≠ ""
  ∧ Register s = Done (Some InvalidDataError) s.
Proof.
  cbn zeta.
  assert (∀ y, no_upper (unicode_ToLower y) = true) as Hlow
    by exact map_lower_no_upper.
  assert ("u" ≠ "") as Hne by discriminate.
  split; [exact Hlow|]. split; [exact Hne|].
  apply (C5_register_validates
           (fresh ACTIVE "u" {[ "messageType" := JStr "register";
                                "channelID" := JStr "bad/id" ]} [endpoint_reply])
           "bad/id" Hlow Hne).
  vm_compute. reflexivity.
Defined.

Lemma C6_witness :
  let long := bytes 101 "a" in
  let s := fresh INACTIVE "" {[ "messageType" := JStr "hello";
                                "channelIDs" := JArr [];
                                "uaid" := JStr long ]} [] in
  Uaid s = "" ∧ len long = 101
  ∧ ∃ s', Hello s = Done (Some InvalidDataError) s'
          ∧ Uaid s' = long ∧ state s' = INACTIVE.
Proof.
  cbn zeta. split; [reflexivity|]. split; [reflexivity|].
  eexists. split.
  - apply (C6_overlong_uaid_stored
             (fresh INACTIVE "" {[ "messageType" := JStr "hello";
                                   "channelIDs" := JArr [];
                                   "uaid" := JStr (bytes 101 "a") ]} [])
             (bytes 101 "a")); vm_compute; reflexivity.
  - split; reflexivity.
Defined.

(** A uaid of exactly 100 bytes is adopted and the hello succeeds. *)
Lemma hello_uaid_100 :
  let s := fresh INACTIVE "" {[ "messageType" := JStr "hello";
                                "channelIDs" := JArr [];
                                "uaid" := JStr (bytes 100 "a") ]} [] in
  ∃ s', Hello s = Done None s' ∧ Uaid s' = bytes 100 "a" ∧ state s' = ACTIVE.
Proof. cbn zeta. eexists. split; [vm_compute; reflexivity|]. split; reflexivity. Qed.

(** After the refused hello the session, still inactive, passes the uaid guard
    of register with the overlong uaid. *)
Lemma register_after_refused_hello :
  let s := fresh INACTIVE "" {[ "messageType" := JStr "hello";
                                "channelIDs" := JArr [];
                                "uaid" := JStr (bytes 101 "a") ]} [endpoint_reply] in
  let s1 := holding (final (Hello s)) {[ "messageType" := JStr "register";
                                         "channelID" := JStr "c1" ]} in
  state s1 = INACTIVE
  ∧ ∃ s2, Register s1 = Done None s2
          ∧ Store s2 = [(bytes 101 "a", "c1", 0)].
Proof.
  cbn zeta. split; [reflexivity|]. eexists.
  split; [vm_compute; reflexivity|]. vm_compute. reflexivity.
Qed.

(** C7 as stated fails for the frame with an empty payload: nothing is
    served and nothing is replied, while the ping frame is answered. *)
Lemma C7_empty_frame_dropped :
  let s := fresh ACTIVE "u" ∅ [] in
  serve [Frame ""] s = (Selecting, s)
  ∧ wire (trace (snd (serve [Frame ""] s))) = []
  ∧ wire (trace (snd (serve [Frame ping_frame] s))) = [SocketSend ping_reply].
Proof. cbn zeta. repeat split; vm_compute; reflexivity. Qed.

Lemma C7_witness :
  let s := fresh ACTIVE "u" ∅ [] in
  ("{}" ≠ "" ∧ json_Unmarshal "{}" = Some (Some ∅))
  ∧ (ping_frame ≠ ""
     ∧ json_Unmarshal ping_frame = Some (Some {[ "messageType" := JStr "ping" ]}))
  ∧ wire (trace (snd (serve [Frame "{}"] s))) = [SocketSend ping_reply]
  ∧ wire (trace (snd (serve [Frame "{}"] s)))
    = wire (trace (snd (serve [Frame ping_frame] s))).
Proof.
  cbn zeta.
  assert ("{}" ≠ "") as H1 by discriminate.
  assert (ping_frame ≠ "") as H2 by discriminate.
  assert (json_Unmarshal "{}" = Some (Some ∅)) as D1 by reflexivity.
  assert (json_Unmarshal ping_frame
          = Some (Some {[ "messageType" := JStr "ping" ]})) as D2
    by (vm_compute; reflexivity).
  destruct (C7_empty_object_is_ping (fresh ACTIVE "u" ∅ [])
              "{}" ping_frame [] H1 D1 H2 D2) as (_ & _ & Hs & _ & Hw).
  split; [by split|]. split; [by split|]. split; [|exact Hw].
  rewrite Hs. vm_compute. reflexivity.
Defined.

Lemma C8_witness :
  let s := fresh INACTIVE "" ∅ [] in
  Uaid s = ""
  ∧ ∃ s', Flush 0 s = Done tt s'
          ∧ StoreCall (OpGetUpdates "" 0) ∈ trace s'
          ∧ count is_die (trace s') = 1%nat.
Proof.
  cbn zeta. split; [reflexivity|].
  destruct (C8_flush_goes_on (fresh INACTIVE "" ∅ []) 0 eq_refl)
    as (s' & rest & Hf & Ht).
  exists s'. split; [exact Hf|]. split.
  - rewrite Ht. cbn [trace fresh app]. do 3 right. left.
  - vm_compute in Hf. injection Hf as <-. vm_compute. reflexivity.
Defined.

(** C9.  Two messages, the second with a messageType that is not a
    string: [Run] has deferred one function per message by the time it
    panics, and its unwinding sends die twice and closes the socket
    twice. *)
Theorem C9_die_twice :
  let s := fresh INACTIVE "" ∅ [] in
  let r := Run [FromIn (Some ∅); FromIn (Some {[ "messageType" := JNum 5 ]})] s in
  fst r = Returned
  ∧ count is_die (trace (snd r)) = 2%nat
  ∧ count is_close (trace (snd r)) = 2%nat.
Proof. cbn zeta. repeat split; vm_compute; reflexivity. Qed.

(** A handler error does not end the loop: nothing tears the session
    down, no die is sent and the socket stays open. *)
Lemma run_error_keeps_selecting :
  let s := fresh INACTIVE "" ∅ [] in
  let r := Run [FromIn (Some {[ "messageType" := JStr "register";
                                "channelID" := JStr "c1" ]})] s in
  fst r = Selecting
  ∧ count is_die (trace (snd r)) = 0%nat
  ∧ count is_close (trace (snd r)) = 0%nat.
Proof. cbn zeta. repeat split; vm_compute; reflexivity. Qed.

Lemma C10_witness :
  let s := fresh ACTIVE "u" {[ "messageType" := JStr "register";
                               "channelID" := JStr "c1" ]}
                 [{| Command := 200; Arguments := JNil |}] in
  Uaid s ≠ ""
  ∧ ∃ s', Register s = Done (Some InvalidDataError) s'
          ∧ Store s' = [("u", "c1", 0)]
          ∧ count is_frame (trace s') = 0%nat.
Proof.
  cbn zeta.
  assert ("u" ≠ "") as Hne by discriminate.
  split; [exact Hne|]. eexists. split.
  - apply (C10_register_not_atomic
             (fresh ACTIVE "u" {[ "messageType" := JStr "register";
                                  "channelID" := JStr "c1" ]}
                    [{| Command := 200; Arguments := JNil |}])
             "c1" [("u", "c1", 0)] {| Command := 200; Arguments := JNil |} []
             Hne).
    + vm_compute. reflexivity.
    + vm_compute. discriminate.
    + vm_compute. reflexivity.
    + vm_compute. reflexivity.
    + vm_compute. reflexivity.
    + intros args e Ha. discriminate Ha.
  - split; vm_compute; reflexivity.
Defined.

(** * Further properties of the worker *)

Section Further.
Context {S D : Type} `{Runtime} `{Backend S D}.

Implicit Types s : Session S D.

(** ** Computations that cannot panic *)

Lemma np_ret {A} (a : A) : @never_panics S D A (ret a).
Proof. intros s. by eexists _, _. Qed.

Lemma np_bind {A B} (c : M S D A) (k : A → M S D B) :
  never_panics c → (∀ a, never_panics (k a)) → never_panics (bind c k).
Proof.
  intros Hc Hk s. unfold bind. destruct (Hc s) as (a & s' & ->). apply Hk.
Qed.

Lemma np_emit e : @never_panics S D _ (emit e).
Proof. intros s. by eexists _, _. Qed.

Lemma np_get_Uaid : @never_panics S D _ get_Uaid.
Proof. intros s. by eexists _, _. Qed.

Lemma np_get_buffer : @never_panics S D _ get_buffer.
Proof. intros s. by eexists _, _. Qed.

Lemma np_set_buffer m : @never_panics S D _ (set_buffer m).
Proof. intros s. by eexists _, _. Qed.

Lemma np_store_call {A} op (f : S → A * S) :
  @never_panics S D A (store_call op f).
Proof. intros s. unfold store_call. destruct (f (Store s)). by eexists _, _. Qed.

Lemma np_Scmd_send cmd : @never_panics S D _ (Scmd_send cmd).
Proof. intros s. by eexists _, _. Qed.

Lemma np_deferring {A} (c : M S D A) d :
  never_panics c → never_panics d → never_panics (deferring c d).
Proof.
  intros Hc Hd s. unfold deferring. destruct (Hc s) as (a & s' & ->).
  destruct (Hd s') as (u & s'' & ->). by eexists _, _.
Qed.

Lemma np_recovering (c : M S D (option error)) : never_panics (recovering c).
Proof. intros s. apply recovering_Done. Qed.

Ltac no_panic :=
  repeat first
    [ apply np_ret | apply np_emit | apply np_get_Uaid | apply np_get_buffer
    | apply np_set_buffer | apply np_store_call | apply np_Scmd_send
    | apply np_recovering
    | apply np_deferring
    | apply np_bind; [|intros ?]
    | match goal with
      | |- never_panics (if ?b then _ else _) => destruct b
      | |- never_panics (match ?x with _ => _ end) => destruct x
      end ].

Lemma np_handleError m e : @never_panics S D _ (handleError m e).
Proof. unfold handleError, log, Socket_Send. no_panic. Qed.

Lemma np_Flush lastAccessed : @never_panics S D _ (Flush lastAccessed).
Proof.
  unfold Flush, log, Socket_Send, Socket_Close.
  apply np_deferring; [|no_panic].
  apply np_bind; [no_panic | intros uaid].
  apply np_bind; [no_panic | intros _].
  apply np_bind; [no_panic | intros r].
  destruct (snd r); [apply np_handleError|].
  destruct (fst r); no_panic.
Qed.

Lemma np_Run_Ccmd cmd now : @never_panics S D _ (Run_Ccmd cmd now).
Proof.
  unfold Run_Ccmd, log. apply np_bind; [no_panic | intros _].
  destruct (_ =? _); [|no_panic].
  apply np_bind; [no_panic | intros _; apply np_Flush].
Qed.

(** Flush never panics, and neither does the service of a server command:
    whatever [Run] receives, it is never taken down by a panic that none
    of its deferred functions recovers. *)
Theorem Run_never_crashes events n s :
  (∀ lastAccessed s0, ∃ s1, Flush lastAccessed s0 = Done tt s1)
  ∧ (∀ cmd now s0, ∃ s1, Run_Ccmd cmd now s0 = Done tt s1)
  ∧ fst (Run_loop events n s) ≠ Crashed.
Proof.
  split.
  { intros la s0. destruct (np_Flush la s0) as ([] & s1 & ->). by eexists. }
  split.
  { intros cmd now s0. destruct (np_Run_Ccmd cmd now s0) as ([] & s1 & ->).
    by eexists. }
  revert n s. induction events as [|ev rest IH]; intros n s; cbn [Run_loop];
    [done|].
  destruct ev as [cmd now|b].
  - destruct (np_Run_Ccmd cmd now s) as ([] & s' & ->). apply IH.
  - destruct (Run_In b s) as [[] s'|s']; [apply IH|done].
Qed.

(** ** Unwinding *)

Lemma count_app p t1 t2 : count p (t1 ++ t2) = (count p t1 + count p t2)%nat.
Proof. unfold count. by rewrite filter_app, length_app. Qed.

Lemma count_cons p e t :
  count p (e :: t) = ((if p e then 1 else 0) + count p t)%nat.
Proof.
  unfold count. rewrite filter_cons.
  destruct (p e); case_decide; simpl; congruence.
Qed.

Lemma count_nil p : count p [] = 0%nat.
Proof. done. Qed.

Lemma is_die_DIE : is_die (ScmdSend {| Command := DIE; Arguments := JNil |}) = true.
Proof. simpl. apply Z.eqb_refl. Qed.

Lemma Run_deferred_Done p s :
  ∃ s', Run_deferred p s = Done tt s'
        ∧ trace s' = trace s
                     ++ (if p then [Log LError "worker" "panic"] else [])
                     ++ [ScmdSend {| Command := DIE; Arguments := JNil |};
                         SocketClose].
Proof.
  unfold Run_deferred, bind, log, Scmd_send, Socket_Close, emit.
  destruct p; simpl; eexists; (split; [done|]); simpl; by rewrite <- !app_assoc.
Qed.

Lemma Run_deferred_counts p s :
  ∃ s', Run_deferred p s = Done tt s'
        ∧ count is_die (trace s') = Datatypes.S (count is_die (trace s))
        ∧ count is_close (trace s') = Datatypes.S (count is_close (trace s)).
Proof.
  destruct (Run_deferred_Done p s) as (s' & Hs' & Ht).
  exists s'. split; [done|].
  rewrite Ht, !count_app, !count_cons, !count_nil, is_die_DIE.
  destruct p; rewrite ?count_cons, ?count_nil; cbn; split; lia.
Qed.

Lemma Run_unwind_counts n p s :
  count is_die (trace (Run_unwind n p s)) = (count is_die (trace s) + n)%nat
  ∧ count is_close (trace (Run_unwind n p s)) = (count is_close (trace s) + n)%nat.
Proof.
  revert p s. induction n as [|n IH]; intros p s; cbn [Run_unwind].
  - split; lia.
  - destruct (Run_deferred_counts p s) as (s' & -> & Hd & Hc).
    destruct (IH false s') as [IHd IHc]. rewrite IHd, IHc, Hd, Hc. split; lia.
Qed.

(** When a message panics [Run] with [n] functions already deferred, the
    loop returns after sending die [n + 1] times and closing the socket
    [n + 1] times: once for every message received from [in], not once for
    the session. *)
Theorem Run_unwinds_once_per_message b rest n s s' :
  Run_In b s = Panicked s' →
  fst (Run_loop (FromIn b :: rest) n s) = Returned
  ∧ count is_die (trace (snd (Run_loop (FromIn b :: rest) n s)))
    = (count is_die (trace s') + Datatypes.S n)%nat
  ∧ count is_close (trace (snd (Run_loop (FromIn b :: rest) n s)))
    = (count is_close (trace s') + Datatypes.S n)%nat.
Proof.
  intros Hp. cbn [Run_loop]. rewrite Hp. cbn [fst snd].
  split; [done|]. apply Run_unwind_counts.
Qed.

(** ** The select on [in] *)

Lemma size_nonempty (m : JsMap) :
  m ≠ ∅ → (0 <? Z.of_nat (size m)) = true ∧ (Z.of_nat (size m) =? 0) = false.
Proof.
  intros Hm. assert (size m ≠ 0%nat) as Hsz by by rewrite map_size_empty_iff.
  split; [apply Z.ltb_lt | apply Z.eqb_neq]; lia.
Qed.

(** What [Run] does with a map that has at least one key, up to the switch. *)
Lemma Run_In_nonempty m s :
  m ≠ ∅ →
  Run_In (Some m) s
  = match m !! "messageType" with
    | None =>
        Done tt (after (holding s m)
                   [Log LInfo "worker" "Client Read buffer, %s %d";
                    Log LInfo "worker" "Invalid message";
                    Log LInfo "worker" "Sending error";
                    SocketSend (error_frame ∅ UnknownCommandError)])
    | Some (JStr t) =>
        match Run_switch t (after (holding s m)
                              [Log LInfo "worker" "Client Read buffer, %s %d"]) with
        | Done (Some e) s' =>
            Done tt (holding (after s' [Log LInfo "worker" "Sending error";
                                        SocketSend (error_frame (buffer s') e)])
                             (error_frame (buffer s') e))
        | Done None s' => Done tt s'
        | Panicked s' => Panicked s'
        end
    | Some _ =>
        Panicked (after (holding s m)
                    [Log LInfo "worker" "Client Read buffer, %s %d"])
    end.
Proof.
  intros Hm. destruct (m !! "messageType") as [v|] eqn:Hv.
  - destruct v; try (by apply Run_In_typed);
      destruct (size_nonempty _ Hm) as [Hpos Hz];
      unfold Run_In, bind, set_buffer; rewrite Hpos, Hz; simpl;
      unfold get_buffer; simpl; rewrite Hv; done.
  - destruct (size_nonempty _ Hm) as [Hpos Hz].
    unfold Run_In, bind, set_buffer. rewrite Hpos, Hz. simpl.
    unfold get_buffer. simpl. rewrite Hv.
    unfold log, emit. simpl. rewrite handleError_Done.
    unfold after, holding. simpl. by rewrite <- !app_assoc.
Qed.

(** A message from [in] panics [Run] in two cases only: the map is nil,
    or its messageType is present and is not a string.  Every other
    message, whatever its fields, is served without a panic. *)
Theorem Run_In_panics_iff b s :
  (∃ s', Run_In b s = Panicked s')
  ↔ b = None
    ∨ ∃ m v, b = Some m ∧ m !! "messageType" = Some v ∧ ∀ t, v ≠ JStr t.
Proof.
  destruct b as [m|]; [|split; [by left | by eexists]].
  destruct (decide (m = ∅)) as [->|Hm].
  { rewrite Run_In_empty_object. split.
    - by intros [s' Hs'].
    - intros [|(m & v & [= <-] & Hv & _)]; [done|].
      by rewrite lookup_empty in Hv. }
  rewrite (Run_In_nonempty _ _ Hm).
  destruct (m !! "messageType") as [v|] eqn:Hv.
  - destruct v as [| | |t| |];
      try (split; [intros _; right; exists m; eexists; by repeat split
                  | by eexists]).
    split.
    + intros [s' Hs'].
      destruct (Run_switch_Done t
                  (after (holding s m)
                     [Log LInfo "worker" "Client Read buffer, %s %d"]))
        as (e & s1 & Hsw).
      rewrite Hsw in Hs'. by destruct e.
    + intros [|(m' & v & [= <-] & Hv' & Hns)]; [done|].
      rewrite Hv in Hv'. injection Hv' as <-. by destruct (Hns t).
  - split; [by intros [s' Hs']|].
    intros [|(m' & v & [= <-] & Hv' & _)]; [done|]. congruence.
Qed.

(** A message with keys but without messageType is answered with the
    unknown-command error on an empty map (nothing of the message is
    echoed) and the loop goes on; no handler runs. *)
Theorem Run_In_missing_messageType m s rest n :
  m ≠ ∅ →
  m !! "messageType" = None →
  Run_loop (FromIn (Some m) :: rest) n s
  = Run_loop rest (Datatypes.S n)
      (after (holding s m)
         [Log LInfo "worker" "Client Read buffer, %s %d";
          Log LInfo "worker" "Invalid message";
          Log LInfo "worker" "Sending error";
          SocketSend {[ "status" := JNum (fst (ErrToStatus UnknownCommandError));
                        "error" := JStr (snd (ErrToStatus UnknownCommandError)) ]}]).
Proof.
  intros Hm Hv. cbn [Run_loop]. rewrite (Run_In_nonempty _ _ Hm), Hv.
  unfold error_frame. by rewrite insert_insert_ne, insert_empty.
Qed.

Lemma Run_switch_unknown t s :
  ToLower t ∉ ["hello"; "ack"; "register"; "unregister"; "ping"] →
  Run_switch t s
  = Done (Some UnknownCommandError) (after s [Log LWarn "worker" "Bad command"]).
Proof.
  intros Hn. unfold Run_switch.
  repeat match goal with
         | |- context [String.eqb ?a ?b] =>
             destruct (String.eqb_spec a b) as [Heq|_];
             [exfalso; apply Hn; rewrite Heq;
              repeat first [by left | right] |]
         end.
  done.
Qed.

(** A message whose type, lower-cased, is none of hello, ack, register,
    unregister and ping gets the unknown-command error, stamped on the
    message itself; no store, no dispatcher and no session field is
    touched, and the loop goes on. *)
Theorem Run_In_unknown_command m t s rest n :
  m !! "messageType" = Some (JStr t) →
  ToLower t ∉ ["hello"; "ack"; "register"; "unregister"; "ping"] →
  Run_loop (FromIn (Some m) :: rest) n s
  = Run_loop rest (Datatypes.S n)
      (holding
         (after s [Log LInfo "worker" "Client Read buffer, %s %d";
                   Log LWarn "worker" "Bad command";
                   Log LInfo "worker" "Sending error";
                   SocketSend (error_frame m UnknownCommandError)])
         (error_frame m UnknownCommandError)).
Proof.
  intros Hv Hn. cbn [Run_loop]. rewrite (Run_In_typed _ _ _ Hv).
  rewrite (Run_switch_unknown _ _ Hn). cbn [after holding buffer trace].
  unfold holding, after. simpl. by rewrite <- !app_assoc.
Qed.

(** ** Letter case of the message type *)

Lemma lower_byte_idem c : lower_byte (lower_byte c) = lower_byte c.
Proof. by destruct c as [[] [] [] [] [] [] [] []]. Qed.

Lemma lower_byte_ascii c :
  byte_in 0 127 c = true → byte_in 0 127 (lower_byte c) = true.
Proof. by destruct c as [[] [] [] [] [] [] [] []]. Qed.

Lemma ToLower_lowered t :
  isASCII t = true → ToLower (map_bytes lower_byte t) = ToLower t.
Proof.
  intros Ht. unfold ToLower. rewrite Ht.
  assert (isASCII (map_bytes lower_byte t) = true) as ->.
  { unfold isASCII in *. induction t as [|c t IH]; [done|]. simpl in *.
    apply andb_prop in Ht as [Hc Ht]. by rewrite lower_byte_ascii, IH. }
  induction t as [|c t IH]; [done|]. simpl in *.
  apply andb_prop in Ht as [_ Ht]. by rewrite lower_byte_idem, IH.
Qed.

(** The switch of [Run] does not see the letter case of an ASCII message
    type: the type and its lower-cased form are served by the same
    handler. *)
Theorem Run_switch_ignores_case t :
  isASCII t = true →
  @Run_switch S D _ _ (map_bytes lower_byte t) = Run_switch t.
Proof. intros Ht. unfold Run_switch. by rewrite ToLower_lowered. Qed.

(** ** Error replies *)


(** ** Flush *)

(** On a session with a uaid, Flush asks the store once, for that uaid and
    the time it was given, and sends at most one frame: the error reply
    stamped notification when the store fails, nothing when there is no
    update, the updates with messageType set to notification otherwise.
    It sends no die and leaves the socket open. *)
Theorem Flush_with_uaid s lastAccessed :
  Uaid s ≠ "" →
  Flush lastAccessed s
  = Done tt
      {| state := state s; Uaid := Uaid s; buffer := buffer s;
         Store := snd (Store_GetUpdates (Uaid s) lastAccessed (Store s));
         Srv := Srv s;
         trace := trace s
           ++ StoreCall (OpGetUpdates (Uaid s) lastAccessed)
              :: match fst (Store_GetUpdates (Uaid s) lastAccessed (Store s)) with
                 | (_, Some err) =>
                     [Log LInfo "worker" "Sending error";
                      SocketSend (error_frame
                                    {[ "messageType" := JStr "notification" ]} err)]
                 | (None, None) => []
                 | (Some updates, None) =>
                     [Log LDebug "worker" "Flushing data back to socket";
                      SocketSend (<["messageType" := JStr "notification"]> updates)]
                 end
              ++ [Log LInfo "timer" "Client flush completed"] |}.
Proof.
  intros Hu. unfold Flush, deferring, bind, get_Uaid.
  rewrite (eqb_empty _ Hu). simpl. unfold store_call.
  destruct (Store_GetUpdates (Uaid s) lastAccessed (Store s))
    as [[upd [e|]] st]; simpl.
  - destruct upd; by rewrite <- !app_assoc.
  - destruct upd; simpl; by rewrite <- !app_assoc.
Qed.

(** ** Ack *)

(** Ack on a session with a uaid: without an updates field it returns
    missing-data and does nothing; when Store.Ack fails its error is
    returned and nothing is flushed; when it succeeds the pending updates
    are flushed from time 0 and no error is returned. *)
Theorem Ack_outcomes s :
  Uaid s ≠ "" →
  (is_nil (index (buffer s) "updates") = true →
     Ack s = Done (Some MissingDataError) s)
  ∧ (is_nil (index (buffer s) "updates") = false →
     ∀ e st', Store_Ack (Uaid s) (buffer s) (Store s) = (Some e, st') →
       Ack s
       = Done (Some e)
           {| state := state s; Uaid := Uaid s; buffer := buffer s;
              Store := st'; Srv := Srv s;
              trace := trace s ++ [StoreCall (OpAck (Uaid s) (buffer s));
                                   Log LDebug "worker" "sending response"] |})
  ∧ (is_nil (index (buffer s) "updates") = false →
     ∀ st', Store_Ack (Uaid s) (buffer s) (Store s) = (None, st') →
       Ack s
       = Done None
           (final (Flush 0
              {| state := state s; Uaid := Uaid s; buffer := buffer s;
                 Store := st'; Srv := Srv s;
                 trace := trace s ++ [StoreCall (OpAck (Uaid s) (buffer s))] |}))).
Proof.
  intros Hu.
  unfold Ack, recovering, Ack_body, bind, get_Uaid, get_buffer.
  rewrite (eqb_empty _ Hu). cbv beta iota.
  split; [by intros ->|]. split.
  - intros -> e st' Hack. unfold store_call. rewrite Hack. simpl.
    by rewrite <- !app_assoc.
  - intros -> st' Hack. unfold store_call. rewrite Hack. cbv beta iota.
    match goal with |- context [Flush 0 ?x] =>
      destruct (np_Flush 0 x) as ([] & s2 & ->) end.
    done.
Qed.

(** ** Register and unregister *)

(** A message without channelID is refused with missing-data by register
    and by unregister before anything is done. *)
Theorem missing_channelID s :
  Uaid s ≠ "" →
  is_nil (index (buffer s) "channelID") = true →
  Register s = Done (Some MissingDataError) s
  ∧ Unregister s
    = Done (Some MissingDataError)
           (after s [Log LError "worker" "Unregister failed, missing channelID"]).
Proof.
  intros Hu Hn.
  unfold Register, Unregister, recovering, Register_body, Unregister_body,
    bind, get_Uaid, get_buffer.
  rewrite (eqb_empty _ Hu). cbv beta iota. rewrite Hn. done.
Qed.

(** What register does once the channelID has passed both checks. *)
Lemma Register_checked s appid :
  Uaid s ≠ "" →
  buffer s !! "channelID" = Some (JStr appid) →
  len appid ≤ CHID_MAX_LEN →
  filter_Find (ToLower appid) = None →
  Register s
  = match Store_RegisterAppID (Uaid s) appid 0 (Store s) with
    | (Some e, st') =>
        Done (Some e)
          {| state := state s; Uaid := Uaid s; buffer := buffer s;
             Store := st'; Srv := Srv s;
             trace := trace s ++ [StoreCall (OpRegisterAppID (Uaid s) appid 0);
                                  Log LError "worker" "ERROR: RegisterAppID failed %s"] |}
    | (None, st') =>
        let cmd := {| Command := REGIS; Arguments := JMap (buffer s) |} in
        let result := fst (Scmd_take (Scmd_put cmd (Srv s))) in
        let told :=
          {| state := state s; Uaid := Uaid s; buffer := buffer s;
             Store := st'; Srv := snd (Scmd_take (Scmd_put cmd (Srv s)));
             trace := trace s ++ [StoreCall (OpRegisterAppID (Uaid s) appid 0);
                                  ScmdSend cmd;
                                  Log LDebug "worker" "Server returned %s"] |} in
        match Arguments result with
        | JMap args =>
            match args !! "pushEndpoint" with
            | Some (JStr endpoint) =>
                Done None
                  (after told
                     [Log LDebug "worker" "sending response";
                      SocketSend
                        {[ "messageType" := index (buffer s) "messageType";
                           "uaid" := JStr (Uaid s);
                           "status" := JNum 200;
                           "channelID" := JStr appid;
                           "pushEndpoint" := JStr endpoint ]}])
            | _ => Done (Some InvalidDataError)
                        (after told [Log LError "worker" "Unhandled error"])
            end
        | _ => Done (Some InvalidDataError)
                    (after told [Log LError "worker" "Unhandled error"])
        end
    end.
Proof.
  intros Hu Hc Hlen Hfilter.
  unfold Register, recovering, Register_body, bind, get_Uaid, get_buffer.
  rewrite (eqb_empty _ Hu), (index_lookup _ _ _ Hc). simpl.
  replace (CHID_MAX_LEN <? len appid) with false
    by (symmetry; apply Z.ltb_ge; exact Hlen).
  rewrite Hfilter. simpl. unfold store_call.
  destruct (Store_RegisterAppID (Uaid s) appid 0 (Store s)) as [[e|] st'].
  { simpl. by rewrite <- !app_assoc. }
  simpl. unfold Scmd_recv. simpl.
  destruct (Scmd_take _) as [result d'] eqn:Htake. simpl.
  unfold after. simpl.
  destruct (Arguments result) as [| | | | |args]; simpl;
    try by rewrite <- !app_assoc.
  unfold index at 1.
  destruct (args !! "pushEndpoint") as [[| | |ep| |]|]; simpl;
    by rewrite <- !app_assoc.
Qed.

(** A successful register: the store registers the channel at version 0,
    the dispatcher is sent the whole message as a register command, and the
    client is sent messageType, uaid, status 200, the channelID and the
    pushEndpoint of the dispatcher's answer. *)
Theorem Register_success s appid st' args endpoint :
  Uaid s ≠ "" →
  buffer s !! "channelID" = Some (JStr appid) →
  len appid ≤ CHID_MAX_LEN →
  filter_Find (ToLower appid) = None →
  Store_RegisterAppID (Uaid s) appid 0 (Store s) = (None, st') →
  Arguments (fst (Scmd_take
                    (Scmd_put {| Command := REGIS; Arguments := JMap (buffer s) |}
                              (Srv s)))) = JMap args →
  args !! "pushEndpoint" = Some (JStr endpoint) →
  Register s
  = Done None
      {| state := state s; Uaid := Uaid s; buffer := buffer s;
         Store := st';
         Srv := snd (Scmd_take
                       (Scmd_put {| Command := REGIS; Arguments := JMap (buffer s) |}
                                 (Srv s)));
         trace := trace s
           ++ [StoreCall (OpRegisterAppID (Uaid s) appid 0);
               ScmdSend {| Command := REGIS; Arguments := JMap (buffer s) |};
               Log LDebug "worker" "Server returned %s";
               Log LDebug "worker" "sending response";
               SocketSend {[ "messageType" := index (buffer s) "messageType";
                             "uaid" := JStr (Uaid s);
                             "status" := JNum 200;
                             "channelID" := JStr appid;
                             "pushEndpoint" := JStr endpoint ]}] |}.
Proof.
  intros Hu Hc Hlen Hfilter Hreg Hargs Hep.
  rewrite (Register_checked _ _ Hu Hc Hlen Hfilter), Hreg. cbv zeta.
  rewrite Hargs, Hep. unfold after. simpl. by rewrite <- !app_assoc.
Qed.

(** When Store.RegisterAppID fails, register returns the store's error:
    the dispatcher is not asked for an endpoint and no frame is sent. *)
Theorem Register_store_error s appid e st' :
  Uaid s ≠ "" →
  buffer s !! "channelID" = Some (JStr appid) →
  len appid ≤ CHID_MAX_LEN →
  filter_Find (ToLower appid) = None →
  Store_RegisterAppID (Uaid s) appid 0 (Store s) = (Some e, st') →
  Register s
  = Done (Some e)
      {| state := state s; Uaid := Uaid s; buffer := buffer s;
         Store := st'; Srv := Srv s;
         trace := trace s ++ [StoreCall (OpRegisterAppID (Uaid s) appid 0);
                              Log LError "worker" "ERROR: RegisterAppID failed %s"] |}.
Proof.
  intros Hu Hc Hlen Hfilter Hreg.
  by rewrite (Register_checked _ _ Hu Hc Hlen Hfilter), Hreg.
Qed.

Lemma word_or_hyphen_lower c : word_or_hyphen (lower_byte c) = word_or_hyphen c.
Proof. by destruct c as [[] [] [] [] [] [] [] []]. Qed.

Lemma filter_Find_lower x :
  filter_Find (map_bytes lower_byte x) = None ↔ filter_Find x = None.
Proof.
  rewrite !filter_Find_None.
  induction x as [|c x IH]; [done|]. simpl.
  rewrite word_or_hyphen_lower. destruct (word_or_hyphen c); simpl; [done|].
  split; done.
Qed.

(** For an ASCII channelID the filter does not see letter case: register
    lets it through exactly when it is at most 100 bytes of digits,
    letters of either case, '_' and '-', and the store is given the
    channelID as the client wrote it, not its lower-cased form. *)
Theorem Register_ascii_channelID s appid :
  Uaid s ≠ "" →
  buffer s !! "channelID" = Some (JStr appid) →
  isASCII appid = true →
  if (len appid <=? CHID_MAX_LEN) && all_bytes word_or_hyphen appid
  then ∃ err s' rest,
         Register s = Done err s'
         ∧ trace s' = trace s
                      ++ StoreCall (OpRegisterAppID (Uaid s) appid 0) :: rest
  else Register s = Done (Some InvalidDataError) s.
Proof.
  intros Hu Hc Hascii.
  assert (filter_Find (ToLower appid) = None
          ↔ all_bytes word_or_hyphen appid = true) as Hfilter.
  { unfold ToLower. rewrite Hascii, filter_Find_lower. apply filter_Find_None. }
  destruct (Z.leb_spec (len appid) CHID_MAX_LEN) as [Hlen|Hlen]; simpl.
  - destruct (all_bytes word_or_hyphen appid) eqn:Hall.
    + assert (filter_Find (ToLower appid) = None) as Hf by by apply Hfilter.
      rewrite (Register_checked _ _ Hu Hc Hlen Hf).
      destruct (Store_RegisterAppID _ _ _ _) as [[e|] st'].
      { by eexists _, _, _. }
      cbv zeta. unfold after.
      destruct (Arguments _) as [| | | | |args];
        try (eexists _, _, _; split; [done|]; simpl; by rewrite <- !app_assoc).
      destruct (args !! "pushEndpoint") as [[| | |ep| |]|];
        eexists _, _, _; (split; [done|]); simpl; by rewrite <- !app_assoc.
    + unfold Register, recovering, Register_body, bind, get_Uaid, get_buffer.
      rewrite (eqb_empty _ Hu), (index_lookup _ _ _ Hc). simpl.
      replace (CHID_MAX_LEN <? len appid) with false
        by (symmetry; apply Z.ltb_ge; exact Hlen).
      destruct (filter_Find (ToLower appid)) eqn:Hf; [done|].
      destruct Hfilter as [Hx _]. by specialize (Hx eq_refl).
  - unfold Register, recovering, Register_body, bind, get_Uaid, get_buffer.
    rewrite (eqb_empty _ Hu), (index_lookup _ _ _ Hc). simpl.
    replace (CHID_MAX_LEN <? len appid) with true
      by (symmetry; apply Z.ltb_lt; exact Hlen).
    done.
Qed.

(** ** Hello *)

Lemma len_le_not_gt u : len u ≤ UAID_MAX_LEN → (UAID_MAX_LEN <? len u) = false.
Proof. intros Hl. by apply Z.ltb_ge. Qed.

Lemma len_empty : (0 <? len "") = false ∧ (len "" =? 0) = true.
Proof. done. Qed.

Lemma Flush_final_Done {A} (a : A) x :
  match @Flush S D _ _ 0 x with
  | Done _ s' => Done a s'
  | Panicked s' => Panicked s'
  end = Done a (final (Flush 0 x)).
Proof. by destruct (np_Flush 0 x) as ([] & s2 & ->). Qed.

(** What hello does from the moment the uaid of the session is settled. *)
Ltac hello_tail :=
  unfold Scmd_send, Scmd_recv, store_call; cbv beta iota;
  cbn [Srv Store Uaid state buffer trace];
  match goal with
  | |- context [Scmd_take ?d] => destruct (Scmd_take d) as [result d'] eqn:Htake
  end;
  cbn [fst snd Srv Store Uaid state buffer trace].

(** A first hello that presents a uaid of 1 to 100 bytes: the uaid is
    adopted, the dispatcher is told hello with the uaid and the
    channelIDs, the store records the uaid's host, the client is sent
    messageType, the status the dispatcher answered (whatever it is) and
    the uaid, the worker becomes active and pending updates are flushed
    from time 0. *)
Theorem Hello_adopts s u st' :
  Uaid s = "" →
  buffer s !! "uaid" = Some (JStr u) →
  u ≠ "" →
  len u ≤ UAID_MAX_LEN →
  is_nil (index (buffer s) "channelIDs") = false →
  Store_SetUAIDHost u (Store s) = (None, st') →
  let cmd := {| Command := HELLO;
                Arguments := JMap {[ "uaid" := JStr u;
                                     "chids" := index (buffer s) "channelIDs" ]} |} in
  let answer := Scmd_take (Scmd_put cmd (Srv s)) in
  Hello s
  = Done None
      (final (Flush 0
         {| state := ACTIVE; Uaid := u; buffer := buffer s;
            Store := st'; Srv := snd answer;
            trace := trace s
              ++ [ScmdSend cmd;
                  StoreCall (OpSetUAIDHost u);
                  Log LDebug "worker" "sending response";
                  SocketSend {[ "messageType" := index (buffer s) "messageType";
                                "status" := JNum (Command (fst answer));
                                "uaid" := JStr u ]}] |})).
Proof.
  intros Hu Hb Hne Hlen Hc Hset. cbv zeta.
  destruct (len_pos _ Hne) as [_ Hz].
  unfold Hello, recovering, Hello_body, bind, get_buffer.
  rewrite Hb. cbv beta iota. unfold ret at 1. cbv beta iota. rewrite Hc.
  unfold get_Uaid. rewrite Hu. cbv beta iota.
  destruct len_empty as [-> ->]. unfold ret at 1. cbv beta iota.
  rewrite (index_lookup _ _ _ Hb). unfold as_string, ret at 1. cbv beta iota.
  unfold set_Uaid. cbv beta iota. rewrite (len_le_not_gt _ Hlen), Hz.
  unfold ret at 1 2. cbv beta iota. cbn [Uaid].
  hello_tail. rewrite Hset. cbv beta iota.
  unfold log, Socket_Send, emit, set_state. cbv beta iota.
  cbn [Srv Store Uaid state buffer trace].
  rewrite <- !app_assoc. cbn [app].
  match goal with |- context [Flush 0 ?x] => rewrite (Flush_final_Done None x) end.
  done.
Qed.

(** A first hello without a uaid field: the field is added to the message
    as the empty string, the uaid is whatever [GenUUID4] yields (its error
    is not read), and the hello goes on as for a presented uaid. *)
Theorem Hello_mints s id gerr d0 st' :
  Uaid s = "" →
  buffer s !! "uaid" = None →
  is_nil (index (buffer s) "channelIDs") = false →
  GenUUID4 (Srv s) = ((id, gerr), d0) →
  Store_SetUAIDHost id (Store s) = (None, st') →
  let cmd := {| Command := HELLO;
                Arguments := JMap {[ "uaid" := JStr id;
                                     "chids" := index (buffer s) "channelIDs" ]} |} in
  let answer := Scmd_take (Scmd_put cmd d0) in
  Hello s
  = Done None
      (final (Flush 0
         {| state := ACTIVE; Uaid := id;
            buffer := <["uaid" := JStr ""]> (buffer s);
            Store := st'; Srv := snd answer;
            trace := trace s
              ++ [ScmdSend cmd;
                  StoreCall (OpSetUAIDHost id);
                  Log LDebug "worker" "sending response";
                  SocketSend {[ "messageType" := index (buffer s) "messageType";
                                "status" := JNum (Command (fst answer));
                                "uaid" := JStr id ]}] |})).
Proof.
  intros Hu Hb Hc Hgen Hset. cbv zeta.
  assert (∀ k, k ≠ "uaid" →
               index (<["uaid" := JStr ""]> (buffer s)) k = index (buffer s) k)
    as Hidx by (intros k Hk; unfold index; by rewrite lookup_insert_ne).
  unfold Hello, recovering, Hello_body, bind, get_buffer.
  rewrite Hb. cbv beta iota. unfold set_buffer at 1. cbv beta iota.
  cbn [buffer]. rewrite !Hidx by done. rewrite Hc.
  unfold get_Uaid. cbn [Uaid]. rewrite Hu. cbv beta iota.
  destruct len_empty as [-> ->]. unfold ret at 1. cbv beta iota.
  rewrite (index_lookup (<["uaid" := JStr ""]> (buffer s)) "uaid" (JStr ""))
    by apply lookup_insert_eq.
  unfold as_string, ret at 1. cbv beta iota.
  unfold set_Uaid at 1. cbv beta iota.
  change (UAID_MAX_LEN <? len "") with false.
  change (len "" =? 0) with true. cbv beta iota.
  unfold genUUID4. cbn [Srv]. rewrite Hgen. cbv beta iota. cbn [fst].
  unfold set_Uaid, ret at 1 2 3. cbv beta iota. cbn [Uaid].
  hello_tail. rewrite Hset. cbv beta iota.
  unfold log, Socket_Send, emit, set_state. cbv beta iota.
  cbn [Srv Store Uaid state buffer trace].
  rewrite <- !app_assoc. cbn [app].
  match goal with |- context [Flush 0 ?x] => rewrite (Flush_final_Done None x) end.
  rewrite ?Hidx by done. done.
Qed.

(** When Store.SetUAIDHost fails, hello returns the store's error after
    the dispatcher has been told hello: no frame is sent and the worker
    does not become active, but the presented uaid stays in the session. *)
Theorem Hello_store_error s u e st' :
  Uaid s = "" →
  buffer s !! "uaid" = Some (JStr u) →
  u ≠ "" →
  len u ≤ UAID_MAX_LEN →
  is_nil (index (buffer s) "channelIDs") = false →
  Store_SetUAIDHost u (Store s) = (Some e, st') →
  let cmd := {| Command := HELLO;
                Arguments := JMap {[ "uaid" := JStr u;
                                     "chids" := index (buffer s) "channelIDs" ]} |} in
  Hello s
  = Done (Some e)
      {| state := state s; Uaid := u; buffer := buffer s;
         Store := st'; Srv := snd (Scmd_take (Scmd_put cmd (Srv s)));
         trace := trace s ++ [ScmdSend cmd; StoreCall (OpSetUAIDHost u)] |}.
Proof.
  intros Hu Hb Hne Hlen Hc Hset. cbv zeta.
  destruct (len_pos _ Hne) as [_ Hz].
  unfold Hello, recovering, Hello_body, bind, get_buffer.
  rewrite Hb. cbv beta iota. unfold ret at 1. cbv beta iota. rewrite Hc.
  unfold get_Uaid. rewrite Hu. cbv beta iota.
  destruct len_empty as [-> ->]. unfold ret at 1. cbv beta iota.
  rewrite (index_lookup _ _ _ Hb). unfold as_string, ret at 1. cbv beta iota.
  unfold set_Uaid. cbv beta iota. rewrite (len_le_not_gt _ Hlen), Hz.
  unfold ret at 1 2. cbv beta iota. cbn [Uaid].
  hello_tail. rewrite Hset. cbv beta iota.
  unfold ret. by rewrite <- !app_assoc.
Qed.

(** A hello on a session that has a uaid, presenting that uaid or the
    empty one, is served again in full: dispatcher, store, reply with the
    session's uaid, flush.  The session's uaid is not checked for length
    at this point. *)
Theorem Hello_again s u st' :
  Uaid s ≠ "" →
  buffer s !! "uaid" = Some (JStr u) →
  u = "" ∨ u = Uaid s →
  is_nil (index (buffer s) "channelIDs") = false →
  Store_SetUAIDHost (Uaid s) (Store s) = (None, st') →
  let cmd := {| Command := HELLO;
                Arguments := JMap {[ "uaid" := JStr (Uaid s);
                                     "chids" := index (buffer s) "channelIDs" ]} |} in
  let answer := Scmd_take (Scmd_put cmd (Srv s)) in
  Hello s
  = Done None
      (final (Flush 0
         {| state := ACTIVE; Uaid := Uaid s; buffer := buffer s;
            Store := st'; Srv := snd answer;
            trace := trace s
              ++ [ScmdSend cmd;
                  StoreCall (OpSetUAIDHost (Uaid s));
                  Log LDebug "worker" "sending response";
                  SocketSend {[ "messageType" := index (buffer s) "messageType";
                                "status" := JNum (Command (fst answer));
                                "uaid" := JStr (Uaid s) ]}] |})).
Proof.
  intros Hu Hb Hsame Hc Hset. cbv zeta.
  destruct (len_pos _ Hu) as [Hpos Hz].
  unfold Hello, recovering, Hello_body, bind, get_buffer.
  rewrite Hb. cbv beta iota. unfold ret at 1. cbv beta iota. rewrite Hc.
  unfold get_Uaid. cbv beta iota. rewrite Hpos, Hz.
  rewrite (index_lookup _ _ _ Hb). unfold as_string, ret at 1. cbv beta iota.
  assert ((if 0 <? len u then ret (negb (String.eqb (Uaid s) u)) else ret false) s
          = Done false s) as ->.
  { destruct Hsame as [->| ->]; [done|].
    destruct (0 <? len (Uaid s)); [|done]. by rewrite String.eqb_refl. }
  unfold ret at 1. cbv beta iota.
  hello_tail. rewrite Hset. cbv beta iota.
  unfold log, Socket_Send, emit, set_state. cbv beta iota.
  cbn [Srv Store Uaid state buffer trace].
  rewrite <- !app_assoc. cbn [app].
  match goal with |- context [Flush 0 ?x] => rewrite (Flush_final_Done None x) end.
  done.
Qed.

(** A hello without channelIDs (absent or null) returns missing-data on
    any session, before the uaid is looked at; all it has done is to add
    an empty uaid field to a message that had none. *)
Theorem Hello_missing_channelIDs s :
  is_nil (index (buffer s) "channelIDs") = true →
  Hello s
  = Done (Some MissingDataError)
      (holding s (match buffer s !! "uaid" with
                  | None => <["uaid" := JStr ""]> (buffer s)
                  | Some _ => buffer s
                  end)).
Proof.
  intros Hc.
  unfold Hello, recovering, Hello_body, bind, get_buffer.
  destruct (buffer s !! "uaid") as [v|] eqn:Hb; cbv beta iota.
  - unfold ret at 1. cbv beta iota. rewrite Hc. unfold holding, ret.
    by destruct s.
  - unfold set_buffer. cbv beta iota. cbn [buffer].
    unfold index in *. rewrite lookup_insert_ne by done. rewrite Hc. done.
Qed.

(** ** Invariants: how they pass through a computation *)

Section Preserved.
Variable I : Session S D → Prop.

Lemma pres_ret {A} (a : A) : preserves I (ret a).
Proof. by intros s Hs. Qed.

Lemma pres_panic {A} : preserves I (@panic S D A).
Proof. by intros s Hs. Qed.

Lemma pres_bind {A B} (c : M S D A) (k : A → M S D B) :
  preserves I c → (∀ a, preserves I (k a)) → preserves I (bind c k).
Proof.
  intros Hc Hk s Hs. unfold bind. specialize (Hc s Hs).
  destruct (c s) as [a s'|s']; simpl in *; [by apply Hk|done].
Qed.

Lemma pres_deferring {A} (c : M S D A) d :
  preserves I c → preserves I d → preserves I (deferring c d).
Proof.
  intros Hc Hd s Hs. unfold deferring. specialize (Hc s Hs).
  destruct (c s) as [a s'|s']; simpl in *; specialize (Hd s' Hc);
    by destruct (d s').
Qed.

Lemma pres_recovering c :
  preserves I (log LError "worker" "Unhandled error") →
  preserves I c → preserves I (recovering c).
Proof.
  intros Hl Hc s Hs. unfold recovering. specialize (Hc s Hs).
  destruct (c s) as [a s'|s']; simpl in *; [done|].
  exact (Hl s' Hc).
Qed.

Lemma pres_get_Uaid_as {B} u (k : string → M S D B) :
  (∀ s, I s → Uaid s = u) → preserves I (k u) → preserves I (bind get_Uaid k).
Proof.
  intros Hu Hk s Hs. unfold bind, get_Uaid. rewrite (Hu s Hs). by apply Hk.
Qed.

Lemma pres_get_Uaid : preserves I get_Uaid.
Proof. by intros s Hs. Qed.

Lemma pres_get_buffer : preserves I get_buffer.
Proof. by intros s Hs. Qed.

Lemma pres_as_string v : preserves I (as_string v).
Proof. destruct v; apply pres_ret || apply pres_panic. Qed.

Lemma pres_as_JsMap v : preserves I (as_JsMap v).
Proof. destruct v; apply pres_ret || apply pres_panic. Qed.

End Preserved.

(** The structure of a computation, leaving its primitive steps to [prim]. *)
Ltac pres_with prim :=
  repeat first
    [ progress prim
    | apply pres_ret | apply pres_panic | apply pres_get_Uaid
    | apply pres_get_buffer | apply pres_as_string | apply pres_as_JsMap
    | apply pres_deferring
    | apply pres_recovering
    | apply pres_bind; [|intros ?]
    | match goal with
      | |- preserves _ (if ?b then _ else _) => destruct b
      | |- preserves _ (match ?x with _ => _ end) => destruct x
      end ].

(** ** The worker's state field *)

Section StateField.
Variable P : Z → Prop.

Local Abbreviation state_in := (@on_state S D P).

Ltac state_prim :=
  match goal with
  | |- preserves state_in (emit _) => by intros s Hs
  | |- preserves state_in (log _ _ _) => by intros s Hs
  | |- preserves state_in (Socket_Send _) => by intros s Hs
  | |- preserves state_in Socket_Close => by intros s Hs
  | |- preserves state_in (set_buffer _) => by intros s Hs
  | |- preserves state_in (set_Uaid _) => by intros s Hs
  | |- preserves state_in (Scmd_send _) => by intros s Hs
  | |- preserves state_in Scmd_recv =>
      intros s Hs; unfold Scmd_recv; by destruct (Scmd_take (Srv s))
  | |- preserves state_in genUUID4 =>
      intros s Hs; unfold genUUID4; by destruct (GenUUID4 (Srv s))
  | |- preserves state_in (store_call _ ?f) =>
      intros s Hs; unfold store_call; by destruct (f (Store s))
  end.

Lemma state_handleError m e : preserves state_in (handleError m e).
Proof. unfold handleError. pres_with ltac:(idtac; state_prim). Qed.

Lemma state_Flush la : preserves state_in (Flush la).
Proof. unfold Flush. pres_with ltac:(idtac; state_prim). Qed.

Lemma state_Ack : preserves state_in Ack.
Proof. unfold Ack, Ack_body. pres_with ltac:(idtac; state_prim). Qed.

Lemma state_Register : preserves state_in Register.
Proof. unfold Register, Register_body. pres_with ltac:(idtac; state_prim). Qed.

Lemma state_Unregister : preserves state_in Unregister.
Proof. unfold Unregister, Unregister_body. pres_with ltac:(idtac; state_prim). Qed.

Lemma state_Ping : preserves state_in Ping.
Proof. unfold Ping. pres_with ltac:(idtac; state_prim). Qed.

Lemma state_Run_Ccmd cmd now : preserves state_in (Run_Ccmd cmd now).
Proof. unfold Run_Ccmd. pres_with ltac:(idtac; state_prim). Qed.

Lemma state_Run_deferred p : preserves state_in (Run_deferred p).
Proof. unfold Run_deferred. pres_with ltac:(idtac; state_prim). Qed.

Lemma state_set_ACTIVE : P ACTIVE → preserves state_in (set_state ACTIVE).
Proof. by intros HP s Hs. Qed.

Lemma state_Hello : P ACTIVE → preserves state_in Hello.
Proof.
  intros HP. pose proof (state_set_ACTIVE HP).
  unfold Hello, Hello_body. pres_with ltac:(idtac; first [state_prim | assumption]).
Qed.

Lemma state_Run_switch t : P ACTIVE → preserves state_in (Run_switch t).
Proof.
  intros HP. unfold Run_switch. cbv zeta.
  repeat match goal with
         | |- preserves _ (if ?b then _ else _) => destruct b
         end;
    first [ by apply state_Hello | apply state_Ack | apply state_Register
          | apply state_Unregister | apply state_Ping
          | pres_with ltac:(idtac; state_prim) ].
Qed.

Lemma state_Run_In b : P ACTIVE → preserves state_in (Run_In b).
Proof.
  intros HP. pose proof (state_Run_switch).
  unfold Run_In. destruct b as [m|]; [|apply pres_panic].
  apply pres_bind; [state_prim | intros _].
  apply pres_bind; [pres_with ltac:(idtac; state_prim) | intros _].
  apply pres_bind; [pres_with ltac:(idtac; state_prim) | intros _].
  apply pres_bind; [apply pres_get_buffer | intros buf].
  destruct (buf !! "messageType").
  - apply pres_bind; [apply pres_as_string | intros t].
    apply pres_bind; [by apply state_Run_switch | intros err].
    destruct err; [|apply pres_ret].
    apply pres_bind; [apply pres_get_buffer | intros buf'].
    apply pres_bind; [apply state_handleError | intros _; state_prim].
  - apply pres_bind; [state_prim | intros _; apply state_handleError].
Qed.

Lemma state_Run_unwind n p s : P (state s) → P (state (Run_unwind n p s)).
Proof.
  revert p s. induction n as [|n IH]; intros p s Hs; cbn [Run_unwind]; [done|].
  pose proof (state_Run_deferred p s Hs) as Hd.
  destruct (Run_deferred p s); by apply IH.
Qed.

Lemma state_Run_loop events n s :
  P ACTIVE → P (state s) → P (state (snd (Run_loop events n s))).
Proof.
  intros HP. revert n s.
  induction events as [|ev rest IH]; intros n s Hs; cbn [Run_loop]; [done|].
  destruct ev as [cmd now|b].
  - pose proof (state_Run_Ccmd cmd now s Hs) as Hc.
    destruct (Run_Ccmd cmd now s) as [[] s'|s']; [by apply IH|].
    destruct n; [done|]. by apply state_Run_unwind.
  - pose proof (state_Run_In b HP s Hs) as Hc.
    destruct (Run_In b s) as [[] s'|s']; [by apply IH|].
    by apply state_Run_unwind.
Qed.

End StateField.

(** The phase is one-way: once the worker is active, no message, no
    server command and no unwinding makes it inactive again. *)
Theorem active_stays_active events n s :
  state s = ACTIVE → state (snd (Run_loop events n s)) = ACTIVE.
Proof. intros Hs. by apply (state_Run_loop (λ v, v = ACTIVE)). Qed.

(** Only hello writes the state, and only when it succeeds: ack, register,
    unregister, ping, flush and a server command leave it as it is, and a
    hello that returns an error leaves it as it is too. *)
Theorem only_hello_activates s :
  state (final (Ack s)) = state s
  ∧ state (final (Register s)) = state s
  ∧ state (final (Unregister s)) = state s
  ∧ state (final (Ping s)) = state s
  ∧ (∀ la, state (final (Flush la s)) = state s)
  ∧ (∀ cmd now, state (final (Run_Ccmd cmd now s)) = state s)
  ∧ ∀ err s', Hello s = Done err s' →
      match err with
      | None => state s' = ACTIVE
      | Some _ => state s' = state s
      end.
Proof.
  split; [by apply (state_Ack (λ v, v = state s))|].
  split; [by apply (state_Register (λ v, v = state s))|].
  split; [by apply (state_Unregister (λ v, v = state s))|].
  split; [by apply (state_Ping (λ v, v = state s))|].
  split; [intros la; by apply (state_Flush (λ v, v = state s))|].
  split; [intros cmd now; by apply (state_Run_Ccmd (λ v, v = state s))|].
  intros err s' Hh.
  (* the state after hello is the old one or ACTIVE, and ACTIVE on success *)
  assert (∀ c : M S D (option error),
            (∀ s0, state s0 = state s →
                   match c s0 with
                   | Done None s1 => state s1 = ACTIVE
                   | Done (Some _) s1 => state s1 = state s
                   | Panicked s1 => state s1 = state s
                   end) →
            recovering c s = Done err s' →
            match err with None => state s' = ACTIVE | Some _ => state s' = state s end)
    as Hrec.
  { intros c Hc. unfold recovering. specialize (Hc s eq_refl).
    destruct (c s) as [[e|] s1|s1]; simpl; intros [= <- <-]; done. }
  apply (Hrec Hello_body); [|exact Hh]. clear Hh Hrec.
  set (I := @on_state S D (λ v, v = state s)).
  assert (∀ A (c : M S D A) (k : A → M S D (option error)),
            preserves I c →
            (∀ a s0, state s0 = state s →
                     match k a s0 with
                     | Done None s1 => state s1 = ACTIVE
                     | Done (Some _) s1 => state s1 = state s
                     | Panicked s1 => state s1 = state s
                     end) →
            ∀ s0, state s0 = state s →
                  match bind c k s0 with
                  | Done None s1 => state s1 = ACTIVE
                  | Done (Some _) s1 => state s1 = state s
                  | Panicked s1 => state s1 = state s
                  end) as Hbind.
  { intros A c k Hc Hk s0 Hs0. unfold bind. specialize (Hc s0 Hs0).
    destruct (c s0) as [a s1|s1]; [by apply Hk | done]. }
  unfold Hello_body.
  apply Hbind; [apply pres_get_buffer | intros data0].
  apply Hbind; [pres_with ltac:(idtac; by intros ? ?) | intros _].
  apply Hbind; [apply pres_get_buffer | intros data].
  destruct (is_nil _); [done|].
  apply Hbind; [apply pres_get_Uaid | intros sockUaid].
  apply Hbind; [pres_with ltac:(idtac; by intros ? ?) | intros other].
  destruct other; [done|].
  apply Hbind.
  { pres_with ltac:(idtac; first [ by intros ? ?
                          | intros ? ?; unfold genUUID4;
                            by destruct (GenUUID4 _) ]). }
  intros tooLong. destruct tooLong; [done|].
  apply Hbind; [apply pres_get_Uaid | intros uaid].
  apply Hbind; [by intros ? ? | intros _].
  apply Hbind.
  { intros s0 Hs0. unfold Scmd_recv. by destruct (Scmd_take _). }
  intros result. apply Hbind.
  { intros s0 Hs0. unfold store_call. by destruct (Store_SetUAIDHost _ _). }
  intros [e|]; [done|].
  intros s0 Hs0. unfold bind, log, Socket_Send, emit, set_state. simpl.
  match goal with |- context [Flush 0 ?x] =>
    pose proof (state_Flush (λ v, v = ACTIVE) 0 x eq_refl) as Hf;
    destruct (np_Flush 0 x) as ([] & s2 & Heq) end.
  rewrite Heq in Hf |- *. exact Hf.
Qed.

(** ** A session with a uaid is not torn down by its messages *)

Lemma count_calm evs :
  forallb calm evs = true →
  count is_die evs = 0%nat ∧ count is_close evs = 0%nat.
Proof.
  induction evs as [|e evs IH]; [done|]. simpl.
  intros [He Hevs]%andb_prop. destruct (IH Hevs) as [IHd IHc].
  rewrite !count_cons, IHd, IHc. unfold calm in He.
  apply andb_prop in He as [Hd Hc]. apply negb_true_iff in Hd, Hc.
  by rewrite Hd, Hc.
Qed.

Lemma Run_In_typed_Done b s : typed b → ∃ s', Run_In b s = Done tt s'.
Proof.
  intros (m & t & -> & Ht). rewrite (Run_In_typed _ _ _ Ht).
  destruct (Run_switch_Done t
              (after (holding s m)
                 [Log LInfo "worker" "Client Read buffer, %s %d"]))
    as (e & s' & ->).
  destruct e; eauto.
Qed.

Section Undisturbed.
Variable u : string.
Variable t0 : list Event.
Hypothesis u_set : u ≠ "".
Hypothesis HELLO_not_DIE : HELLO ≠ DIE.
Hypothesis REGIS_not_DIE : REGIS ≠ DIE.

Local Abbreviation quiet := (@undisturbed _ S D u t0).

Lemma und_emit e : calm e = true → preserves quiet (emit e).
Proof.
  intros He s [Hu (evs & Ht & Hc)]. split; [done|].
  exists (evs ++ [e]). simpl. rewrite Ht, app_assoc. split; [done|].
  rewrite forallb_app, Hc. simpl. by rewrite He.
Qed.

Lemma und_Scmd_send cmd : Command cmd ≠ DIE → preserves quiet (Scmd_send cmd).
Proof.
  intros Hcmd s [Hu (evs & Ht & Hc)]. split; [done|].
  exists (evs ++ [ScmdSend cmd]). simpl. rewrite Ht, app_assoc. split; [done|].
  rewrite forallb_app, Hc. unfold calm. simpl.
  by apply Z.eqb_neq in Hcmd as ->.
Qed.

Lemma und_store_call {A} op (f : S → A * S) : preserves quiet (store_call op f).
Proof.
  intros s [Hu (evs & Ht & Hc)]. unfold store_call.
  destruct (f (Store s)) as [a st]. split; [done|].
  exists (evs ++ [StoreCall op]). simpl. rewrite Ht, app_assoc. split; [done|].
  by rewrite forallb_app, Hc.
Qed.

Ltac und_prim :=
  match goal with
  | |- preserves _ (log _ _ _) => by apply und_emit
  | |- preserves _ (Socket_Send _) => by apply und_emit
  | |- preserves _ (store_call _ _) => apply und_store_call
  | |- preserves _ (Scmd_send _) => by apply und_Scmd_send
  | |- preserves _ (set_buffer _) => by intros s Hs
  | |- preserves _ (set_state _) => by intros s Hs
  | |- preserves _ Scmd_recv =>
      intros s Hs; unfold Scmd_recv; by destruct (Scmd_take (Srv s))
  end.

Lemma und_Uaid s : quiet s → Uaid s = u.
Proof. by intros [Hu _]. Qed.

Lemma und_handleError m e : preserves quiet (handleError m e).
Proof. unfold handleError. pres_with ltac:(idtac; und_prim). Qed.

Lemma und_Flush la : preserves quiet (Flush la).
Proof.
  unfold Flush. apply pres_deferring; [|und_prim].
  apply (pres_get_Uaid_as _ u); [apply und_Uaid|].
  rewrite (eqb_empty _ u_set).
  pose proof und_handleError.
  pres_with ltac:(idtac; first [assumption | und_prim]).
Qed.

Lemma und_Ack : preserves quiet Ack.
Proof.
  pose proof (und_Flush 0).
  unfold Ack, Ack_body. pres_with ltac:(idtac; first [assumption | und_prim]).
Qed.

Lemma und_Register : preserves quiet Register.
Proof. unfold Register, Register_body. pres_with ltac:(idtac; und_prim). Qed.

Lemma und_Unregister : preserves quiet Unregister.
Proof. unfold Unregister, Unregister_body. pres_with ltac:(idtac; und_prim). Qed.

Lemma und_Ping : preserves quiet Ping.
Proof. unfold Ping. pres_with ltac:(idtac; und_prim). Qed.

Lemma und_Hello : preserves quiet Hello.
Proof.
  destruct (len_pos _ u_set) as [Hpos Hz].
  pose proof (und_Flush 0).
  unfold Hello, Hello_body. apply pres_recovering; [und_prim|].
  apply pres_bind; [apply pres_get_buffer | intros data0].
  apply pres_bind; [pres_with ltac:(idtac; und_prim) | intros _].
  apply pres_bind; [apply pres_get_buffer | intros data].
  destruct (is_nil _); [apply pres_ret|].
  apply (pres_get_Uaid_as _ u); [apply und_Uaid|]. rewrite Hpos, Hz.
  apply pres_bind; [pres_with ltac:(idtac; und_prim) | intros other].
  destruct other; [apply pres_ret|].
  apply pres_bind; [apply pres_ret | intros tooLong].
  destruct tooLong; [apply pres_ret|].
  pres_with ltac:(idtac; first [assumption | und_prim]).
Qed.

Lemma und_Run_switch t : preserves quiet (Run_switch t).
Proof.
  unfold Run_switch. cbv zeta.
  repeat match goal with
         | |- preserves _ (if ?b then _ else _) => destruct b
         end;
    first [ apply und_Hello | apply und_Ack | apply und_Register
          | apply und_Unregister | apply und_Ping
          | pres_with ltac:(idtac; und_prim) ].
Qed.

Lemma und_Run_In b : preserves quiet (Run_In b).
Proof.
  unfold Run_In. destruct b as [m|]; [|apply pres_panic].
  apply pres_bind; [und_prim | intros _].
  apply pres_bind; [pres_with ltac:(idtac; und_prim) | intros _].
  apply pres_bind; [pres_with ltac:(idtac; und_prim) | intros _].
  apply pres_bind; [apply pres_get_buffer | intros buf].
  destruct (buf !! "messageType").
  - apply pres_bind; [apply pres_as_string | intros t].
    apply pres_bind; [apply und_Run_switch | intros err].
    destruct err; [|apply pres_ret].
    apply pres_bind; [apply pres_get_buffer | intros buf'].
    apply pres_bind; [apply und_handleError | intros _; und_prim].
  - apply pres_bind; [und_prim | intros _; apply und_handleError].
Qed.

Lemma und_Run_Ccmd cmd now : preserves quiet (Run_Ccmd cmd now).
Proof.
  unfold Run_Ccmd. apply pres_bind; [und_prim | intros _].
  destruct (_ =? _); [|apply pres_ret].
  apply pres_bind; [und_prim | intros _; apply und_Flush].
Qed.

Lemma und_Run_loop events n s :
  (∀ b, FromIn b ∈ events → typed b) →
  quiet s →
  fst (Run_loop events n s) = Selecting ∧ quiet (snd (Run_loop events n s)).
Proof.
  revert n s. induction events as [|ev rest IH]; intros n s Hty Hs;
    cbn [Run_loop]; [done|].
  assert (∀ b, FromIn b ∈ rest → typed b) as Hrest
    by (intros b Hb; apply Hty; by right).
  destruct ev as [cmd now|b].
  - pose proof (und_Run_Ccmd cmd now s Hs) as Hc.
    destruct (np_Run_Ccmd cmd now s) as ([] & s' & Heq).
    rewrite Heq in Hc |- *. by apply IH.
  - pose proof (und_Run_In b s Hs) as Hc.
    destruct (Run_In_typed_Done b s) as (s' & Heq); [apply Hty; by left|].
    rewrite Heq in Hc |- *. by apply IH.
Qed.

End Undisturbed.

(** On a session that has a uaid, as long as every message has a string
    messageType, [Run] stays in its select whatever the messages and the
    server commands are, and whatever its handlers return: it sends no die
    and does not close the socket.  (The command codes for hello and
    register are taken to differ from the one for die.) *)
Theorem session_with_uaid_not_torn_down events s :
  HELLO ≠ DIE → REGIS ≠ DIE →
  Uaid s ≠ "" →
  (∀ b, FromIn b ∈ events → typed b) →
  fst (Run events s) = Selecting
  ∧ Uaid (snd (Run events s)) = Uaid s
  ∧ count is_die (trace (snd (Run events s))) = count is_die (trace s)
  ∧ count is_close (trace (snd (Run events s))) = count is_close (trace s).
Proof.
  intros Hh Hr Hu Hty.
  destruct (und_Run_loop (Uaid s) (trace s) Hu Hh Hr events 0 s Hty)
    as [Hsel [Hu' (evs & Ht & Hc)]].
  { split; [done|]. exists []. by rewrite app_nil_r. }
  unfold Run. split; [done|]. split; [done|].
  destruct (count_calm _ Hc) as [Hd Hcl].
  rewrite Ht, !count_app, Hd, Hcl. split; lia.
Qed.

(** ** The sniffer *)

Lemma len_zero raw : (0 <? len raw) = false ↔ raw = "".
Proof.
  split; [|by intros ->]. destruct raw; [done|].
  intros Hl. apply Z.ltb_ge in Hl. unfold len in Hl. simpl in Hl. lia.
Qed.

Lemma sniffer_exit_counts msg :
  count is_die (sniffer_exit msg) = 1%nat
  ∧ count is_close (sniffer_exit msg) = 1%nat.
Proof.
  unfold sniffer_exit. rewrite !count_cons, !count_nil, is_die_DIE. done.
Qed.

Lemma sniffer_step raw rest :
  sniffer (Frame raw :: rest)
  = if 0 <? len raw then
      match json_Unmarshal raw with
      | None =>
          ([], (if 5 <? len raw then [Log LInfo "worker" "Socket receive"] else [])
               ++ sniffer_exit "Unparsable data", true)
      | Some buffer =>
          (buffer :: fst (fst (sniffer rest)),
           (if 5 <? len raw then [Log LInfo "worker" "Socket receive"] else [])
           ++ match buffer with
              | Some m => if 10 <? Z.of_nat (size m)
                          then [Log LInfo "worker" "Socket send"] else []
              | None => []
              end
           ++ snd (fst (sniffer rest)),
           snd (sniffer rest))
      end
    else sniffer rest.
Proof.
  cbn [sniffer]. destruct (0 <? len raw); [|done].
  destruct (json_Unmarshal raw); [|done].
  by destruct (sniffer rest) as [[sent evs] ended].
Qed.

(** The sniffer sends die and closes the socket exactly once when its
    loop ends and not at all while it is still reading; its loop ends
    exactly when a read fails or a non-empty frame does not decode. *)
Theorem sniffer_tears_down_once frames :
  let ended := snd (sniffer frames) in
  let evs := snd (fst (sniffer frames)) in
  count is_die evs = (if ended then 1 else 0)%nat
  ∧ count is_close evs = (if ended then 1 else 0)%nat
  ∧ (ended = false ↔ Forall readable frames).
Proof.
  cbv zeta. induction frames as [|f frames IH].
  { repeat split; try done. }
  destruct f as [|raw].
  { cbn [sniffer fst snd]. destruct (sniffer_exit_counts "Websocket Error").
    split; [done|]. split; [done|]. split; [done|].
    intros Hf. apply Forall_cons in Hf as [[] _]. }
  rewrite sniffer_step. destruct (0 <? len raw) eqn:Hlen.
  - destruct (json_Unmarshal raw) as [buffer|] eqn:Hdec; cbn [fst snd].
    + destruct IH as (IHd & IHc & IHe).
      rewrite !count_app, IHd, IHc.
      assert (∀ p l, (∀ e, e ∈ l → p e = false) → count p l = 0%nat) as Hzero.
      { intros p l. induction l as [|e l IHl]; [done|]. intros Hp.
        rewrite count_cons, Hp, IHl; [done| |by left].
        intros e' He'. apply Hp. by right. }
      rewrite !(Hzero _ (if 5 <? len raw then _ else _)).
      2,3: intros e He; destruct (5 <? len raw);
           [apply list_elem_of_singleton in He as ->; done
           | by apply elem_of_nil in He].
      rewrite !(Hzero _ (match buffer with Some _ => _ | None => _ end)).
      2,3: intros e He; destruct buffer as [m|];
           [destruct (10 <? Z.of_nat (size m));
            [apply list_elem_of_singleton in He as ->; done
            | by apply elem_of_nil in He]
           | by apply elem_of_nil in He].
      split; [done|]. split; [done|]. rewrite IHe, Forall_cons.
      split; [intros Hf; split; [right; by eexists | done] | by intros [_ Hf]].
    + destruct (sniffer_exit_counts "Unparsable data") as [Hd Hc].
      rewrite !count_app, Hd, Hc.
      assert (∀ p, p (Log LInfo "worker" "Socket receive") = false →
                   count p (if 5 <? len raw
                            then [Log LInfo "worker" "Socket receive"] else [])
                   = 0%nat) as Hzero.
      { intros p Hp. destruct (5 <? len raw); [|done].
        by rewrite count_cons, Hp. }
      rewrite !Hzero by done. split; [done|]. split; [done|]. split; [done|].
      intros Hf. apply Forall_cons in Hf as [[->|[b Hb]] _]; [done|congruence].
  - destruct IH as (IHd & IHc & IHe). split; [done|]. split; [done|].
    rewrite IHe, Forall_cons. apply len_zero in Hlen.
    split; [intros Hf; split; [by left | done] | by intros [_ Hf]].
Qed.

Lemma sniffer_readable frames :
  Forall readable frames →
  fst (fst (sniffer frames)) = concat (map forwarded frames)
  ∧ snd (sniffer frames) = false.
Proof.
  induction frames as [|f frames IH]; [done|].
  intros [Hf Hfs]%Forall_cons. destruct (IH Hfs) as [IHs IHe].
  destruct f as [|raw]; [done|]. rewrite sniffer_step. cbn [map concat forwarded].
  destruct (0 <? len raw) eqn:Hlen; [|done].
  destruct Hf as [->|[b Hb]]; [done|]. rewrite Hb. cbn [fst snd].
  by rewrite IHs.
Qed.

(** The sniffer forwards, in the order received and without loss, the
    decoding of every non-empty frame up to the first read error or the
    first frame that does not decode; empty frames are skipped and nothing
    after that first failure is read. *)
Theorem sniffer_forwards_in_order good bad rest :
  Forall readable good →
  (fst (fst (sniffer good)) = concat (map forwarded good)
   ∧ snd (sniffer good) = false)
  ∧ (¬ readable bad →
     fst (fst (sniffer (good ++ bad :: rest))) = concat (map forwarded good)
     ∧ snd (sniffer (good ++ bad :: rest)) = true).
Proof.
  intros Hgood. split; [by apply sniffer_readable|].
  intros Hbad. induction good as [|f good IH].
  - cbn [app map concat]. destruct bad as [|raw]; [done|]. rewrite sniffer_step.
    destruct (0 <? len raw) eqn:Hlen.
    + destruct (json_Unmarshal raw) as [b|] eqn:Hdec; [|done].
      destruct Hbad. right. by eexists.
    + destruct Hbad. left. by apply len_zero.
  - apply Forall_cons in Hgood as [Hf Hgood]. destruct (IH Hgood) as [IHs IHe].
    destruct f as [|raw]; [done|]. cbn [app]. rewrite sniffer_step.
    cbn [map concat forwarded].
    destruct (0 <? len raw) eqn:Hlen; [|done].
    destruct Hf as [->|[b Hb]]; [done|]. rewrite Hb. cbn [fst snd].
    by rewrite IHs.
Qed.

(** ** Server commands *)

(** A server command other than flush, die included, is logged and
    nothing else: the session goes on as before. *)
Theorem Run_Ccmd_not_flush cmd now rest n s :
  Command cmd ≠ FLUSH →
  Run_loop (FromCcmd cmd now :: rest) n s
  = Run_loop rest n (after s [Log LInfo "worker" "Client cmd"]).
Proof.
  intros Hc. cbn [Run_loop]. unfold Run_Ccmd, bind, log, emit.
  apply Z.eqb_neq in Hc. rewrite Hc. done.
Qed.
End Further.

(** * The further properties on the memory backend *)

Lemma Run_unwinds_once_per_message_witness :
  let s := fresh ACTIVE "u" ∅ [] in
  let bad : JsMap := {[ "messageType" := JNum 5 ]} in
  Run_In (Some bad) s
  = Panicked (after (holding s bad) [Log LInfo "worker" "Client Read buffer, %s %d"])
  ∧ count is_die (trace (snd (Run_loop [FromIn (Some bad)] 1 s))) = 2%nat
  ∧ count is_close (trace (snd (Run_loop [FromIn (Some bad)] 1 s))) = 2%nat.
Proof.
  cbn zeta.
  assert (Run_In (Some {[ "messageType" := JNum 5 ]}) (fresh ACTIVE "u" ∅ [])
          = Panicked (after (holding (fresh ACTIVE "u" ∅ [])
                                     {[ "messageType" := JNum 5 ]})
                            [Log LInfo "worker" "Client Read buffer, %s %d"]))
    as Hp by (vm_compute; reflexivity).
  split; [exact Hp|].
  destruct (Run_unwinds_once_per_message _ [] 1 _ _ Hp) as (_ & Hd & Hc).
  split; [exact Hd | exact Hc].
Defined.

Lemma Run_In_missing_messageType_witness :
  let s := fresh ACTIVE "u" ∅ [] in
  let m : JsMap := {[ "channelID" := JStr "c1" ]} in
  m ≠ ∅ ∧ m !! "messageType" = None
  ∧ wire (trace (snd (Run [FromIn (Some m)] s)))
    = [SocketSend {[ "status" := JNum 405; "error" := JStr "Unknown Command" ]}].
Proof.
  cbn zeta.
  assert (({[ "channelID" := JStr "c1" ]} : JsMap) ≠ ∅) as Hm
    by (intros Hm; apply (f_equal (λ m : JsMap, m !! "channelID")) in Hm;
        vm_compute in Hm; discriminate Hm).
  assert (({[ "channelID" := JStr "c1" ]} : JsMap) !! "messageType" = None)
    as Hv by (vm_compute; reflexivity).
  split; [exact Hm|]. split; [exact Hv|].
  unfold Run.
  rewrite (Run_In_missing_messageType _ (fresh ACTIVE "u" ∅ []) [] 0 Hm Hv).
  vm_compute. reflexivity.
Defined.

Lemma Run_In_unknown_command_witness :
  let s := fresh ACTIVE "u" ∅ [] in
  let m : JsMap := {[ "messageType" := JStr "Bogus" ]} in
  m !! "messageType" = Some (JStr "Bogus")
  ∧ wire (trace (snd (Run [FromIn (Some m)] s)))
    = [SocketSend {[ "messageType" := JStr "Bogus";
                     "status" := JNum 405;
                     "error" := JStr "Unknown Command" ]}].
Proof.
  cbn zeta.
  assert (({[ "messageType" := JStr "Bogus" ]} : JsMap) !! "messageType"
          = Some (JStr "Bogus")) as Hv by (vm_compute; reflexivity).
  split; [exact Hv|]. unfold Run.
  rewrite (Run_In_unknown_command _ "Bogus" (fresh ACTIVE "u" ∅ []) [] 0 Hv).
  - vm_compute. reflexivity.
  - intros Hin. replace (ToLower "Bogus") with "bogus" in Hin by reflexivity.
    rewrite !elem_of_cons, elem_of_nil in Hin.
    destruct Hin as [Hin|[Hin|[Hin|[Hin|[Hin|[]]]]]]; discriminate Hin.
Defined.

Lemma Run_switch_ignores_case_witness :
  isASCII "PING" = true
  ∧ Run_switch "ping" (fresh ACTIVE "u" {[ "messageType" := JStr "PING" ]} [])
    = Run_switch "PING" (fresh ACTIVE "u" {[ "messageType" := JStr "PING" ]} []).
Proof.
  split; [reflexivity|].
  change "ping" with (map_bytes lower_byte "PING").
  by rewrite (Run_switch_ignores_case "PING" eq_refl).
Defined.

Lemma Flush_with_uaid_witness :
  let s := fresh ACTIVE "u" ∅ [] in
  Uaid s ≠ ""
  ∧ Flush 7 s
    = Done tt (after s [StoreCall (OpGetUpdates "u" 7);
                        Log LInfo "timer" "Client flush completed"]).
Proof.
  cbn zeta. assert ("u" ≠ "") as Hne by discriminate.
  split; [exact Hne|].
  rewrite (Flush_with_uaid (fresh ACTIVE "u" ∅ []) 7 Hne).
  vm_compute. reflexivity.
Defined.

Lemma Ack_outcomes_witness :
  let s := fresh ACTIVE "u" {[ "messageType" := JStr "ack" ]} [] in
  Uaid s ≠ "" ∧ Ack s = Done (Some MissingDataError) s.
Proof.
  cbn zeta. assert ("u" ≠ "") as Hne by discriminate.
  split; [exact Hne|].
  destruct (Ack_outcomes (fresh ACTIVE "u" {[ "messageType" := JStr "ack" ]} [])
              Hne) as (Hmiss & _).
  apply Hmiss. vm_compute. reflexivity.
Defined.

Lemma missing_channelID_witness :
  let s := fresh ACTIVE "u" {[ "messageType" := JStr "register" ]} [] in
  Uaid s ≠ "" ∧ Register s = Done (Some MissingDataError) s.
Proof.
  cbn zeta. assert ("u" ≠ "") as Hne by discriminate.
  split; [exact Hne|].
  apply (missing_channelID
           (fresh ACTIVE "u" {[ "messageType" := JStr "register" ]} []) Hne).
  vm_compute. reflexivity.
Defined.

Lemma Register_success_witness :
  let s := fresh ACTIVE "u" {[ "messageType" := JStr "register";
                               "channelID" := JStr "c1" ]} [endpoint_reply] in
  Uaid s ≠ ""
  ∧ ∃ s', Register s = Done None s'
          ∧ Store s' = [("u", "c1", 0)]
          ∧ filter (λ e, is_frame e = true) (trace s')
            = [SocketSend {[ "messageType" := JStr "register";
                             "uaid" := JStr "u";
                             "status" := JNum 200;
                             "channelID" := JStr "c1";
                             "pushEndpoint" := JStr "https://x/c1" ]}].
Proof.
  cbn zeta. assert ("u" ≠ "") as Hne by discriminate.
  split; [exact Hne|]. eexists. split.
  - apply (Register_success
             (fresh ACTIVE "u" {[ "messageType" := JStr "register";
                                  "channelID" := JStr "c1" ]} [endpoint_reply])
             "c1" [("u", "c1", 0)] {[ "pushEndpoint" := JStr "https://x/c1" ]}
             "https://x/c1" Hne).
    + vm_compute. reflexivity.
    + vm_compute. discriminate.
    + vm_compute. reflexivity.
    + vm_compute. reflexivity.
    + vm_compute. reflexivity.
    + vm_compute. reflexivity.
  - split; vm_compute; reflexivity.
Defined.

Lemma Register_store_error_witness :
  let s := stranded ACTIVE "u" {[ "messageType" := JStr "register";
                                  "channelID" := JStr "c1" ]} in
  Uaid s ≠ ""
  ∧ ∃ s', @Register _ _ sample_runtime store_down s
          = Done (Some (StorageError "store down")) s'
          ∧ wire (trace s') = [StoreCall (OpRegisterAppID "u" "c1" 0)].
Proof.
  cbn zeta. assert ("u" ≠ "") as Hne by discriminate.
  split; [exact Hne|]. eexists. split.
  - apply (@Register_store_error _ _ sample_runtime store_down
             (stranded ACTIVE "u" {[ "messageType" := JStr "register";
                                     "channelID" := JStr "c1" ]})
             "c1" (StorageError "store down") tt Hne).
    + vm_compute. reflexivity.
    + vm_compute. discriminate.
    + vm_compute. reflexivity.
    + vm_compute. reflexivity.
  - vm_compute. reflexivity.
Defined.

Lemma Register_ascii_channelID_witness :
  let s := fresh ACTIVE "u" {[ "messageType" := JStr "register";
                               "channelID" := JStr "Chan_1-A" ]} [endpoint_reply] in
  Uaid s ≠ "" ∧ isASCII "Chan_1-A" = true
  ∧ ∃ err s' rest,
      Register s = Done err s'
      ∧ trace s' = trace s ++ StoreCall (OpRegisterAppID "u" "Chan_1-A" 0) :: rest.
Proof.
  cbn zeta. assert ("u" ≠ "") as Hne by discriminate.
  split; [exact Hne|]. split; [reflexivity|].
  apply (Register_ascii_channelID
           (fresh ACTIVE "u" {[ "messageType" := JStr "register";
                                "channelID" := JStr "Chan_1-A" ]} [endpoint_reply])
           "Chan_1-A" Hne).
  - vm_compute. reflexivity.
  - reflexivity.
Defined.

Lemma Hello_adopts_witness :
  let s := fresh INACTIVE "" {[ "messageType" := JStr "hello";
                                "channelIDs" := JArr [];
                                "uaid" := JStr "ua-1" ]}
                 [{| Command := 503; Arguments := JNil |}] in
  Uaid s = ""
  ∧ ∃ s', Hello s = Done None s'
          ∧ state s' = ACTIVE ∧ Uaid s' = "ua-1"
          ∧ filter (λ e, is_frame e = true) (trace s')
            = [SocketSend {[ "messageType" := JStr "hello";
                             "status" := JNum 503;
                             "uaid" := JStr "ua-1" ]}].
Proof.
  cbn zeta. split; [reflexivity|]. eexists. split.
  - apply (Hello_adopts
             (fresh INACTIVE "" {[ "messageType" := JStr "hello";
                                   "channelIDs" := JArr [];
                                   "uaid" := JStr "ua-1" ]}
                    [{| Command := 503; Arguments := JNil |}])
             "ua-1" []).
    + reflexivity.
    + vm_compute. reflexivity.
    + discriminate.
    + vm_compute. discriminate.
    + vm_compute. reflexivity.
    + reflexivity.
  - repeat split; vm_compute; reflexivity.
Defined.

Lemma Hello_mints_witness :
  let s := fresh INACTIVE "" {[ "messageType" := JStr "hello";
                                "channelIDs" := JArr [] ]} [] in
  Uaid s = "" ∧ buffer s !! "uaid" = None
  ∧ ∃ s', Hello s = Done None s'
          ∧ state s' = ACTIVE
          ∧ Uaid s' = "6ba7b810-9dad-41d1-80b4-00c04fd430c8"
          ∧ buffer s' !! "uaid" = Some (JStr "").
Proof.
  cbn zeta. split; [reflexivity|]. split; [vm_compute; reflexivity|].
  eexists. split.
  - apply (Hello_mints
             (fresh INACTIVE "" {[ "messageType" := JStr "hello";
                                   "channelIDs" := JArr [] ]} [])
             "6ba7b810-9dad-41d1-80b4-00c04fd430c8" None [] []).
    + reflexivity.
    + vm_compute. reflexivity.
    + vm_compute. reflexivity.
    + reflexivity.
    + reflexivity.
  - repeat split; vm_compute; reflexivity.
Defined.

Lemma Hello_store_error_witness :
  let s := stranded INACTIVE "" {[ "messageType" := JStr "hello";
                                   "channelIDs" := JArr [];
                                   "uaid" := JStr "ua-1" ]} in
  Uaid s = ""
  ∧ ∃ s', @Hello _ _ sample_runtime store_down s
          = Done (Some (StorageError "store down")) s'
          ∧ state s' = INACTIVE ∧ Uaid s' = "ua-1"
          ∧ count is_frame (trace s') = 0%nat.
Proof.
  cbn zeta. split; [reflexivity|]. eexists. split.
  - apply (@Hello_store_error _ _ sample_runtime store_down
             (stranded INACTIVE "" {[ "messageType" := JStr "hello";
                                      "channelIDs" := JArr [];
                                      "uaid" := JStr "ua-1" ]})
             "ua-1" (StorageError "store down") tt).
    + reflexivity.
    + vm_compute. reflexivity.
    + discriminate.
    + vm_compute. discriminate.
    + vm_compute. reflexivity.
    + reflexivity.
  - repeat split; vm_compute; reflexivity.
Defined.

Lemma Hello_again_witness :
  let s := fresh ACTIVE "ua-1" {[ "messageType" := JStr "hello";
                                  "channelIDs" := JArr [];
                                  "uaid" := JStr "ua-1" ]} [] in
  Uaid s ≠ ""
  ∧ ∃ s', Hello s = Done None s'
          ∧ Uaid s' = "ua-1"
          ∧ wire (trace s')
            = [ScmdSend {| Command := HELLO;
                           Arguments := JMap {[ "uaid" := JStr "ua-1";
                                                "chids" := JArr [] ]} |};
               StoreCall (OpSetUAIDHost "ua-1");
               SocketSend {[ "messageType" := JStr "hello";
                             "status" := JNum 200;
                             "uaid" := JStr "ua-1" ]};
               StoreCall (OpGetUpdates "ua-1" 0)].
Proof.
  cbn zeta. assert ("ua-1" ≠ "") as Hne by discriminate.
  split; [exact Hne|]. eexists. split.
  - apply (Hello_again
             (fresh ACTIVE "ua-1" {[ "messageType" := JStr "hello";
                                     "channelIDs" := JArr [];
                                     "uaid" := JStr "ua-1" ]} [])
             "ua-1" [] Hne).
    + vm_compute. reflexivity.
    + right. reflexivity.
    + vm_compute. reflexivity.
    + reflexivity.
  - repeat split; vm_compute; reflexivity.
Defined.

Lemma Hello_missing_channelIDs_witness :
  let s := fresh INACTIVE "" {[ "messageType" := JStr "hello" ]} [] in
  is_nil (index (buffer s) "channelIDs") = true
  ∧ Hello s
    = Done (Some MissingDataError)
           (holding s {[ "messageType" := JStr "hello"; "uaid" := JStr "" ]}).
Proof.
  cbn zeta. split; [vm_compute; reflexivity|].
  rewrite (Hello_missing_channelIDs
             (fresh INACTIVE "" {[ "messageType" := JStr "hello" ]} []))
    by (vm_compute; reflexivity).
  vm_compute. reflexivity.
Defined.

Lemma active_stays_active_witness :
  let s := fresh ACTIVE "u" ∅ [] in
  state s = ACTIVE
  ∧ state (snd (Run [FromIn (Some {[ "messageType" := JNum 5 ]})] s)) = ACTIVE.
Proof.
  cbn zeta. split; [reflexivity|].
  apply (active_stays_active
           [FromIn (Some {[ "messageType" := JNum 5 ]})] 0
           (fresh ACTIVE "u" ∅ [])).
  reflexivity.
Defined.

Lemma session_with_uaid_not_torn_down_witness :
  let s := fresh ACTIVE "u" ∅ [] in
  let events := [FromIn (Some {[ "messageType" := JStr "register" ]});
                 FromCcmd {| Command := FLUSH; Arguments := JNil |} 9;
                 FromIn (Some {[ "messageType" := JStr "bogus" ]})] in
  HELLO ≠ DIE ∧ REGIS ≠ DIE ∧ Uaid s ≠ ""
  ∧ fst (Run events s) = Selecting
  ∧ count is_die (trace (snd (Run events s))) = 0%nat
  ∧ count is_close (trace (snd (Run events s))) = 0%nat.
Proof.
  cbn zeta.
  assert (HELLO ≠ DIE) as Hh by discriminate.
  assert (REGIS ≠ DIE) as Hr by discriminate.
  assert ("u" ≠ "") as Hne by discriminate.
  split; [exact Hh|]. split; [exact Hr|]. split; [exact Hne|].
  destruct (session_with_uaid_not_torn_down
              [FromIn (Some {[ "messageType" := JStr "register" ]});
               FromCcmd {| Command := FLUSH; Arguments := JNil |} 9;
               FromIn (Some {[ "messageType" := JStr "bogus" ]})]
              (fresh ACTIVE "u" ∅ []) Hh Hr Hne) as (Hsel & _ & Hd & Hc).
  { intros b Hb. rewrite !elem_of_cons, elem_of_nil in Hb.
    destruct Hb as [Hb|[Hb|[Hb|[]]]]; [| discriminate Hb |];
      injection Hb as ->; eexists _, _; (split; [reflexivity|]);
      apply lookup_singleton_eq. }
  split; [exact Hsel|]. split; [exact Hd | exact Hc].
Defined.

Lemma sniffer_forwards_in_order_witness :
  let good := [Frame "{}"; Frame ""; Frame ping_frame] in
  Forall readable good ∧ ¬ readable (Frame "oops")
  ∧ fst (fst (sniffer (good ++ [Frame "oops"; Frame "{}"])))
    = [Some ∅; Some {[ "messageType" := JStr "ping" ]}]
  ∧ snd (sniffer (good ++ [Frame "oops"; Frame "{}"])) = true.
Proof.
  cbn zeta.
  assert (Forall readable [Frame "{}"; Frame ""; Frame ping_frame]) as Hgood.
  { constructor; [right; eexists; reflexivity|].
    constructor; [by left|].
    constructor; [|constructor].
    right. exists (Some {[ "messageType" := JStr "ping" ]}).
    vm_compute. reflexivity. }
  assert (¬ readable (Frame "oops")) as Hbad.
  { intros [Hb|[b Hb]]; [discriminate Hb|]. vm_compute in Hb. discriminate Hb. }
  split; [exact Hgood|]. split; [exact Hbad|].
  destruct (sniffer_forwards_in_order
              [Frame "{}"; Frame ""; Frame ping_frame] (Frame "oops") [Frame "{}"]
              Hgood) as (_ & Hcut).
  destruct (Hcut Hbad) as [Hs He]. split; [|exact He].
  rewrite Hs. vm_compute. reflexivity.
Defined.

Lemma Run_Ccmd_not_flush_witness :
  let s := fresh ACTIVE "u" ∅ [] in
  let die := {| Command := DIE; Arguments := JNil |} in
  Command die ≠ FLUSH
  ∧ Run [FromCcmd die 9] s = (Selecting, after s [Log LInfo "worker" "Client cmd"]).
Proof.
  cbn zeta.
  assert (Command {| Command := DIE; Arguments := JNil |} ≠ FLUSH) as Hc
    by discriminate.
  split; [exact Hc|]. unfold Run.
  by rewrite (Run_Ccmd_not_flush _ 9 [] 0 (fresh ACTIVE "u" ∅ []) Hc).
Defined.
